(** * Reddit media scraper: the media-acquisition pipeline

    A shallow embedding of [src/services/subreddit-scraper.ts] (token
    cache, hot-listing fetch, per-post media classification) and of the
    sanitising filter of [src/app/actions.ts], followed by the properties
    of the pipeline that are established about them.

    Conventions of the embedding.
    - A JavaScript string is a [string]; the operations used by the code
      ([includes], [endsWith], [split], [toLowerCase], the file-extension
      regular expression) only look at ASCII code units, so bytes are
      enough. The one exception is the title of a post, which the download
      name rewrites code unit by code unit: it is a list of UTF-16 code
      units ([JSString.CodeUnits]).
    - A JavaScript number that holds a status code, a limit or a timestamp
      in milliseconds is a [Z]; the arithmetic of the two agrees on the
      safe integers ([safe_integer]).
    - An optional field [f?: T] is an [option T]; truthiness tests are
      written out ([truthy_string], [truthy_flag]).
    - The module-level variables [redditAccessToken] and [tokenExpiryTime]
      live in a [World] that is threaded through an exception/state monad
      [Async]; the same world records every request handed to [fetch].
    - [console.log]/[warn]/[error] calls have no effect on any value and
      are left out. *)

From Stdlib Require Import ZArith String Ascii List Lia.
From stdpp Require Import base strings list gmap pretty.

Open Scope string_scope.
Open Scope Z_scope.

(** ** String primitives of the platform *)

Module JS.

(** [s.startsWith(p)] *)
Fixpoint startsWith (s p : string) : bool :=
  match p, s with
  | EmptyString, _ => true
  | String _ _, EmptyString => false
  | String a p', String b s' => if Ascii.eqb a b then startsWith s' p' else false
  end.

(** [s.includes(sub)]: [sub] starts at some position of [s]. *)
Fixpoint includes (s sub : string) : bool :=
  startsWith s sub ||
  match s with
  | EmptyString => false
  | String _ s' => includes s' sub
  end.

(** [s.endsWith(suf)] *)
Fixpoint endsWith (s suf : string) : bool :=
  String.eqb s suf ||
  match s with
  | EmptyString => false
  | String _ s' => endsWith s' suf
  end.

Definition lower_ascii (c : ascii) : ascii :=
  let n := nat_of_ascii c in
  if (Nat.leb 65 n && Nat.leb n 90)%bool then ascii_of_nat (n + 32) else c.

(** [s.toLowerCase()] on ASCII code units. *)
Fixpoint toLowerCase (s : string) : string :=
  match s with
  | EmptyString => EmptyString
  | String c s' => String (lower_ascii c) (toLowerCase s')
  end.

(** [s.split(sep)] for a one-character separator: the pieces between
    separators, empty pieces included. [cur] is the piece being read,
    in reverse. *)
Fixpoint split_go (sep : ascii) (s : string) (cur : string) : list string :=
  match s with
  | EmptyString => [String.rev cur]
  | String c s' =>
      if Ascii.eqb c sep then String.rev cur :: split_go sep s' EmptyString
      else split_go sep s' (String c cur)
  end.

Definition split (s : string) (sep : ascii) : list string :=
  split_go sep s EmptyString.

(** Truthiness of a string: non-empty. *)
Definition truthy (s : string) : bool :=
  match s with EmptyString => false | String _ _ => true end.

(** Truthiness of an optional string: present and non-empty. *)
Definition truthy_string (o : option string) : bool :=
  match o with Some s => truthy s | None => false end.

(** Truthiness of an optional boolean flag. *)
Definition truthy_flag (o : option bool) : bool :=
  match o with Some b => b | None => false end.

(** Truthiness of a number: not zero. *)
Definition truthy_number (z : Z) : bool := negb (z =? 0).

(** A thrown [Error] object; only its message is ever inspected. *)
Record Error := mkError { message : string }.

End JS.

(** ** Data model of [subreddit-scraper.ts] *)

Inductive MediaType := image | video | redgifs.

Record MediaPost := {
  mediaUrl : string;
  mediaType : MediaType;
  title : string;
  redditUrl : string
}.

(** [Omit<MediaPost, 'title' | 'redditUrl'>] *)
Record FoundMedia := {
  found_mediaUrl : string;
  found_mediaType : MediaType
}.

Record RedditTokenResponse := {
  access_token : string;
  token_type : string;
  expires_in : Z
}.

Inductive PostHint :=
  hint_image | hint_hosted_video | hint_link | hint_rich_video | hint_self.

(** [reddit_video] and [reddit_video_preview]: only [fallback_url] is read. *)
Record RedditVideo := { fallback_url : option string }.

Record Preview := { reddit_video_preview : option RedditVideo }.

Record OEmbed := { provider_name : option string }.

Record Media := {
  reddit_video : option RedditVideo;
  oembed : option OEmbed
}.

Record SecureMediaEmbed := { media_domain_url : option string }.

(** The fields of [RedditPostData] that the scraper reads. *)
Record RedditPostData := {
  post_title : string;
  permalink : string;
  url : string;
  post_hint : option PostHint;
  is_video : bool;
  is_gallery : option bool;
  stickied : option bool;
  domain : string;
  preview : option Preview;
  media : option Media;
  secure_media_embed : option SecureMediaEmbed
}.

Record RedditListingChild := {
  child_kind : string;
  child_data : option RedditPostData
}.

Record RedditListingData := {
  children : option (list RedditListingChild)
}.

Record RedditApiResponse := {
  listing_kind : string;
  listing_data : option RedditListingData
}.

Global Instance MediaType_eq_dec : EqDecision MediaType.
Proof. solve_decision. Defined.

Global Instance PostHint_eq_dec : EqDecision PostHint.
Proof. solve_decision. Defined.

(** ** The feed classifier (body of the [forEach] callback, rules 1 to 4) *)

(** [/\.(jpg|jpeg|png|gif)$/i.test(u)] *)
Definition image_extension_test (u : string) : bool :=
  let l := JS.toLowerCase u in
  JS.endsWith l ".jpg" || JS.endsWith l ".jpeg" ||
  JS.endsWith l ".png" || JS.endsWith l ".gif".

Definition has_hint (h : PostHint) (postData : RedditPostData) : bool :=
  bool_decide (post_hint postData = Some h).

(** Optional chaining [o?.f] for an optional field [f]. *)
Definition chain {A B : Type} (o : option A) (f : A -> option B) : option B :=
  match o with Some a => f a | None => None end.

Notation "o ?. f" := (chain o f) (at level 45, left associativity).

(** [postData.media?.reddit_video?.fallback_url] *)
Definition media_fallback_url (postData : RedditPostData) : option string :=
  Some postData ?. media ?. reddit_video ?. fallback_url.

(** [postData.media?.oembed?.provider_name] *)
Definition oembed_provider_name (postData : RedditPostData) : option string :=
  Some postData ?. media ?. oembed ?. provider_name.

(** [postData.secure_media_embed?.media_domain_url] *)
Definition embed_media_domain_url (postData : RedditPostData) : option string :=
  Some postData ?. secure_media_embed ?. media_domain_url.

(** [postData.preview?.reddit_video_preview?.fallback_url] *)
Definition preview_fallback_url (postData : RedditPostData) : option string :=
  Some postData ?. preview ?. reddit_video_preview ?. fallback_url.

(** A string known to be truthy, with the empty string standing for the
    falsy cases (never used on those). *)
Definition the_string (o : option string) : string := default "" o.

Definition string_is (o : option string) (s : string) : bool :=
  match o with Some x => String.eqb x s | None => false end.

(** The test of rule 1, [post_hint === 'image' || regex.test(url)]. *)
Definition rule1_test (postData : RedditPostData) : bool :=
  has_hint hint_image postData || image_extension_test (url postData).

(** The test of rule 2. *)
Definition rule2_test (postData : RedditPostData) : bool :=
  is_video postData && JS.truthy_string (media_fallback_url postData).

(** The test of rule 3. *)
Definition rule3_test (postData : RedditPostData) : bool :=
  String.eqb (domain postData) "redgifs.com" ||
  string_is (oembed_provider_name postData) "Redgifs".

(** The test of rule 4. *)
Definition rule4_test (postData : RedditPostData) : bool :=
  has_hint hint_rich_video postData || has_hint hint_link postData.

Definition classifyMedia (postData : RedditPostData) : option FoundMedia :=
  if rule1_test postData then
    if JS.truthy (url postData) && negb (JS.includes (url postData) "gallery") then
      Some {| found_mediaUrl := url postData; found_mediaType := image |}
    else None
  else if rule2_test postData then
    Some {| found_mediaUrl := the_string (media_fallback_url postData);
            found_mediaType := video |}
  else if rule3_test postData then
    let redgifsUrl :=
      if JS.truthy_string (embed_media_domain_url postData) &&
         JS.includes (the_string (embed_media_domain_url postData)) "redgifs.com"
      then the_string (embed_media_domain_url postData)
      else if JS.truthy_string (preview_fallback_url postData) &&
              JS.includes (the_string (preview_fallback_url postData)) "redgifs"
      then the_string (preview_fallback_url postData)
      else url postData in
    Some {| found_mediaUrl := redgifsUrl; found_mediaType := redgifs |}
  else if rule4_test postData then
    if String.eqb (domain postData) "gfycat.com" &&
       JS.truthy_string (preview_fallback_url postData)
    then Some {| found_mediaUrl := the_string (preview_fallback_url postData);
                 found_mediaType := video |}
    else if String.eqb (domain postData) "imgur.com" &&
            JS.endsWith (url postData) ".gifv" &&
            JS.truthy_string (preview_fallback_url postData)
    then Some {| found_mediaUrl := the_string (preview_fallback_url postData);
                 found_mediaType := video |}
    else None
  else None.

(** ** The [forEach] callback over [listing.data.children] *)

(** The two variables the callback updates. *)
Record Accumulated := {
  mediaPosts : list MediaPost;
  skippedCount : Z
}.

Definition skip (acc : Accumulated) : Accumulated :=
  {| mediaPosts := mediaPosts acc; skippedCount := skippedCount acc + 1 |}.

(** [mediaPosts.some(p => p.mediaUrl === u)] *)
Definition already_listed (posts : list MediaPost) (u : string) : bool :=
  existsb (fun p => String.eqb (mediaUrl p) u) posts.

(** The callback with the classifier as a parameter, so that statements
    can say which entries reach the classifier at all. *)
Definition forEach_callback_with
    (classify : RedditPostData -> option FoundMedia)
    (acc : Accumulated) (child : RedditListingChild) : Accumulated :=
  if negb (String.eqb (child_kind child) "t3") then skip acc
  else
  match child_data child with
  | None => skip acc
  | Some postData =>
        let redditUrl := "https://www.reddit.com" +:+ permalink postData in
        if JS.truthy_flag (stickied postData) then skip acc
        else if JS.truthy_flag (is_gallery postData) then skip acc
        else
          match classify postData with
          | Some foundMedia =>
              if JS.truthy (found_mediaUrl foundMedia) &&
                 bool_decide (found_mediaType foundMedia = image)
              then
                if negb (already_listed (mediaPosts acc) (found_mediaUrl foundMedia))
                then
                  {| mediaPosts := mediaPosts acc ++
                       [ {| mediaUrl := found_mediaUrl foundMedia;
                            mediaType := found_mediaType foundMedia;
                            title := if JS.truthy (post_title postData)
                                     then post_title postData
                                     else "Untitled Post";
                            redditUrl := redditUrl |} ];
                     skippedCount := skippedCount acc |}
                else skip acc
              else skip acc
          | None => skip acc
          end
  end.

Definition forEach_callback : Accumulated -> RedditListingChild -> Accumulated :=
  forEach_callback_with classifyMedia.

(** [children.forEach(callback)], starting from the empty list and zero. *)
Definition forEach_children (l : list RedditListingChild) : Accumulated :=
  fold_left forEach_callback l {| mediaPosts := []; skippedCount := 0 |}.

(** The guard [listing.kind !== 'Listing' || !listing.data ||
    !listing.data.children]: the children when it lets the listing pass. *)
Definition listing_children (listing : RedditApiResponse)
    : option (list RedditListingChild) :=
  if negb (String.eqb (listing_kind listing) "Listing") then None
  else Some listing ?. listing_data ?. children.

(** ** Effects: the token cache, the clock and the network *)

(** The [Authorization] header of a request. [Basic] carries the
    [id:secret] pair whose base64 encoding is sent. *)
Inductive Authorization := Basic (credentials : string) | Bearer (token : string).

(** The arguments of one [fetch] call ([cache: 'no-store'] is constant). *)
Record Request := {
  req_url : string;
  req_method : string;
  req_authorization : Authorization;
  req_user_agent : string;
  req_content_type : option string;
  req_body : option string
}.

(** A response whose head has arrived. [json] is the outcome of
    [response.json()] read at the declared interface type: either the
    decoded value or the error raised while decoding. *)
Record Response (T : Type) := {
  status : Z;
  text : string;
  json : JS.Error + T
}.

Arguments status {T} _.
Arguments text {T} _.
Arguments json {T} _.

(** [response.ok] *)
Definition ok {T : Type} (response : Response T) : bool :=
  (200 <=? status response) && (status response <=? 299).

(** How a [fetch] settles: the promise rejects (no connection, time-out,
    unreadable body) or resolves to a response. *)
Inductive FetchOutcome (T : Type) :=
| Rejected (e : JS.Error)
| Responded (r : Response T).

Arguments Rejected {T} _.
Arguments Responded {T} _.

(** What the code reads from outside: the process environment, the clock
    ([clock n] is the value of the [n]-th [Date.now()] of the process) and
    the two endpoints (their answer to a request, given the number of
    requests sent before it). *)
Record Env := {
  REDDIT_CLIENT_ID : option string;
  REDDIT_CLIENT_SECRET : option string;
  clock : nat -> Z;
  grant_endpoint : nat -> Request -> FetchOutcome RedditTokenResponse;
  hot_endpoint : nat -> Request -> FetchOutcome RedditApiResponse
}.

(** The mutable state: the two module-level cache variables, and the
    bookkeeping of the outside world (clock readings made, requests sent,
    oldest first). *)
Record World := {
  redditAccessToken : option string;
  tokenExpiryTime : option Z;
  clock_reads : nat;
  sent : list Request
}.

Inductive Outcome (A : Type) :=
| Returned (a : A)
| Thrown (e : JS.Error).

Arguments Returned {A} _.
Arguments Thrown {A} _.

(** An [async] computation: runs in a world, returns or throws, and leaves
    a world behind. *)
Definition Async (A : Type) : Type := World -> Outcome A * World.

Definition ret {A : Type} (a : A) : Async A := fun w => (Returned a, w).

Definition throw {A : Type} (e : JS.Error) : Async A := fun w => (Thrown e, w).

Definition bind {A B : Type} (m : Async A) (k : A -> Async B) : Async B :=
  fun w =>
    match m w with
    | (Returned a, w') => k a w'
    | (Thrown e, w') => (Thrown e, w')
    end.

(** [try { m } catch (error) { handler error }] *)
Definition try_catch {A : Type} (m : Async A) (handler : JS.Error -> Async A) : Async A :=
  fun w =>
    match m w with
    | (Returned a, w') => (Returned a, w')
    | (Thrown e, w') => handler e w'
    end.

Notation "x <- m ;; k" := (bind m (fun x => k))
  (at level 20, m at level 99, k at level 200, only parsing).
Notation "m ;; k" := (bind m (fun _ => k))
  (at level 100, k at level 200, only parsing, right associativity).

Definition get_world : Async World := fun w => (Returned w, w).

(** The world after both cache variables are assigned. *)
Definition with_cache (t : option string) (e : option Z) (w : World) : World :=
  {| redditAccessToken := t; tokenExpiryTime := e;
     clock_reads := clock_reads w; sent := sent w |}.

(** The world after one more reading of the clock. *)
Definition tick (w : World) : World :=
  {| redditAccessToken := redditAccessToken w; tokenExpiryTime := tokenExpiryTime w;
     clock_reads := S (clock_reads w); sent := sent w |}.

(** The world after one more request. *)
Definition with_request (req : Request) (w : World) : World :=
  {| redditAccessToken := redditAccessToken w; tokenExpiryTime := tokenExpiryTime w;
     clock_reads := clock_reads w; sent := sent w ++ [req] |}.

(** Assignment to both cache variables. *)
Definition set_cache (t : option string) (e : option Z) : Async unit :=
  fun w => (Returned tt, with_cache t e w).

(** [redditAccessToken = null; tokenExpiryTime = null;] *)
Definition clear_cache : Async unit := set_cache None None.

(** [redditAccessToken && tokenExpiryTime && now < tokenExpiryTime], with
    the token that the guarded [return] yields. *)
Definition cached_token (w : World) (now : Z) : option string :=
  match redditAccessToken w, tokenExpiryTime w with
  | Some t, Some e =>
      if JS.truthy t && JS.truthy_number e && (now <? e) then Some t else None
  | _, _ => None
  end.

Definition error_includes (error : JS.Error) (s : string) : bool :=
  JS.includes (JS.message error) s.

Definition tokenUrl : string := "https://www.reddit.com/api/v1/access_token".

(** The thrown messages of [getRedditAccessToken]. *)
Definition msg_credentials_missing : string :=
  "Reddit API credentials are missing. Please configure them in your .env file.".

Definition msg_grant_unauthorized (st : Z) : string :=
  "Failed to authenticate with Reddit API. Status: " +:+ pretty st +:+
  " (Unauthorized). Please verify your REDDIT_CLIENT_ID and REDDIT_CLIENT_SECRET.".

Definition msg_grant_failed (st : Z) : string :=
  "Failed to authenticate with Reddit API. Status: " +:+ pretty st.

Definition msg_invalid_token : string :=
  "Failed to get a valid bearer token from Reddit.".

Definition msg_could_not_connect : string :=
  "Could not connect to Reddit API to get access token.".

(** The thrown messages of [scrapeTrendyImages]. *)
Definition msg_invalid_subreddit_url : string :=
  "Invalid subreddit URL format. Please use the format: https://www.reddit.com/r/subredditname/".

Definition msg_listing_unauthorized : string :=
  "Reddit API authentication failed (401 Unauthorized). Access token might be expired or invalid. Please ensure credentials in .env are correct.".

Definition msg_not_found (subredditName : string) : string :=
  "Subreddit 'r/" +:+ subredditName +:+ "' not found or is private (404).".

Definition msg_access_denied (subredditName : string) : string :=
  "Access denied (403 Forbidden) when fetching r/" +:+ subredditName +:+
  ". Possible reasons: Invalid API key permissions, blocked User-Agent, IP restrictions, or subreddit access rules.".

Definition msg_rate_limited : string :=
  "Rate limited by Reddit (429 Too Many Requests). Please wait and try again later.".

Definition msg_fetch_failed (st : Z) (errorBody : string) : string :=
  "Failed to fetch data from Reddit API. Status: " +:+ pretty st +:+
  ". Details: " +:+ String.substring 0 100 errorBody +:+ "...".

Definition msg_invalid_structure : string :=
  "Received invalid data structure from Reddit API.".

Definition msg_unexpected (subredditName : string) : string :=
  "An unexpected error occurred while processing data from Reddit API for r/" +:+
  subredditName +:+ ".".

(** The parts of a parsed [URL] object that the code reads. *)
Record URL := {
  protocol : string;
  hostname : string;
  pathname : string
}.

Section Pipeline.

(** The platform's [new URL(s)]: [None] when the constructor throws. *)
Variable new_URL : string -> option URL.

Variable env : Env.

(** [Date.now()] *)
Definition Date_now : Async Z :=
  fun w => (Returned (clock env (clock_reads w)), tick w).

(** [await fetch(...)] against one of the two endpoints: the request is
    recorded, then the promise settles. *)
Definition fetch {T : Type} (endpoint : nat -> Request -> FetchOutcome T)
    (req : Request) : Async (Response T) :=
  fun w =>
    match endpoint (length (sent w)) req with
    | Rejected e => (Thrown e, with_request req w)
    | Responded r => (Returned r, with_request req w)
    end.

(** [await response.json()] *)
Definition json_of {T : Type} (response : Response T) : Async T :=
  match json response with
  | inl e => throw e
  | inr v => ret v
  end.

Definition getUserAgent : string :=
  let platform := "web" in
  let appId := if JS.truthy_string (REDDIT_CLIENT_ID env)
               then the_string (REDDIT_CLIENT_ID env) else "unknown-app-id" in
  let version := "1.1.0" in
  platform +:+ ":" +:+ appId +:+ ":" +:+ version +:+
  " (NextJS Subreddit Scraper by Firebase Studio)".

(** The request of the client-credentials grant. *)
Definition grant_request (clientId clientSecret : string) : Request :=
  {| req_url := tokenUrl;
     req_method := "POST";
     req_authorization := Basic (clientId +:+ ":" +:+ clientSecret);
     req_user_agent := getUserAgent;
     req_content_type := Some "application/x-www-form-urlencoded";
     req_body := Some "grant_type=client_credentials" |}.

(** The grant request built from the credentials of the environment. *)
Definition the_grant_request : Request :=
  grant_request (the_string (REDDIT_CLIENT_ID env))
                (the_string (REDDIT_CLIENT_SECRET env)).

Definition getRedditAccessToken : Async string :=
  now <- Date_now ;;
  w <- get_world ;;
  match cached_token w now with
  | Some t => ret t
  | None =>
      let clientId := REDDIT_CLIENT_ID env in
      let clientSecret := REDDIT_CLIENT_SECRET env in
      if negb (JS.truthy_string clientId) || negb (JS.truthy_string clientSecret)
      then throw (JS.mkError msg_credentials_missing)
      else
        try_catch
          (response <- fetch (grant_endpoint env) the_grant_request ;;
           if negb (ok response) then
             if status response =? 401 then
               clear_cache ;;
               throw (JS.mkError (msg_grant_unauthorized (status response)))
             else throw (JS.mkError (msg_grant_failed (status response)))
           else
             tokenData <- json_of response ;;
             if negb (String.eqb (token_type tokenData) "bearer") ||
                negb (JS.truthy (access_token tokenData))
             then throw (JS.mkError msg_invalid_token)
             else
               now' <- Date_now ;;
               set_cache (Some (access_token tokenData))
                         (Some (now' + (expires_in tokenData - 300) * 1000)) ;;
               ret (access_token tokenData))
          (fun error =>
             clear_cache ;;
             if error_includes error "Failed to authenticate" then throw error
             else if error_includes error "Reddit API credentials are missing"
             then throw error
             else throw (JS.mkError msg_could_not_connect))
  end.

Definition extractSubredditName (u : string) : option string :=
  match new_URL u with
  | Some parsedUrl =>
      let pathParts := List.filter JS.truthy (JS.split (pathname parsedUrl) "/") in
      match pathParts with
      | p0 :: p1 :: _ =>
          if String.eqb (JS.toLowerCase p0) "r" then Some p1 else None
      | _ => None
      end
  | None => None
  end.

(** The request for the hot listing. *)
Definition hot_request (subredditName : string) (limit : Z) (accessToken : string)
    : Request :=
  {| req_url := "https://oauth.reddit.com/r/" +:+ subredditName +:+
                "/hot?limit=" +:+ pretty (Z.min limit 100);
     req_method := "GET";
     req_authorization := Bearer accessToken;
     req_user_agent := getUserAgent;
     req_content_type := None;
     req_body := None |}.

(** The messages the final [catch] lets through unchanged. *)
Definition rethrown_markers : list string :=
  [ "credentials are missing"; "Failed to authenticate"; "401 Unauthorized";
    "Could not connect"; "Invalid subreddit URL format";
    "(404)"; "(403)"; "(429)"; "invalid data structure" ].

Definition is_specific_error (error : JS.Error) : bool :=
  existsb (error_includes error) rethrown_markers.

Definition scrapeTrendyImages (subredditUrl : string) (limit : Z)
    : Async (list MediaPost) :=
  match extractSubredditName subredditUrl with
  | None => throw (JS.mkError msg_invalid_subreddit_url)
  | Some subredditName =>
      if negb (JS.truthy subredditName)
      then throw (JS.mkError msg_invalid_subreddit_url)
      else
        accessToken <- try_catch getRedditAccessToken (fun authError => throw authError) ;;
        try_catch
          (response <- fetch (hot_endpoint env)
                         (hot_request subredditName limit accessToken) ;;
           if negb (ok response) then
             let errorBody := text response in
             if status response =? 401 then
               clear_cache ;;
               throw (JS.mkError msg_listing_unauthorized)
             else if status response =? 404 then
               throw (JS.mkError (msg_not_found subredditName))
             else if status response =? 403 then
               throw (JS.mkError (msg_access_denied subredditName))
             else if status response =? 429 then
               throw (JS.mkError msg_rate_limited)
             else throw (JS.mkError (msg_fetch_failed (status response) errorBody))
           else
             listing <- json_of response ;;
             match listing_children listing with
             | None => throw (JS.mkError msg_invalid_structure)
             | Some items => ret (mediaPosts (forEach_children items))
             end)
          (fun error =>
             if is_specific_error error then throw error
             else throw (JS.mkError (msg_unexpected subredditName)))
  end.

End Pipeline.

(** ** The sanitiser of [actions.ts] *)

(** [getAllowedHostnames()], with the host names of the image
    configuration ([nextConfig.images.remotePatterns]) as a parameter. *)
Definition getAllowedHostnames (configHostnames : list string) : gset string :=
  ({[ "i.redd.it"; "preview.redd.it"; "imgur.com"; "files.catbox.moe" ]}
     ∪ list_to_set (List.filter JS.truthy configHostnames))
  ∪ {[ "picsum.photos" ]}.

(** The variables of the loop of [sanitizeAndFilterImages]. *)
Record Sanitizing := {
  sanitizedImages : list MediaPost;
  invalidUrlCount : Z;
  nonImageCount : Z
}.

Section Sanitizer.

Variable new_URL : string -> option URL.

Definition isValidAndAllowedUrl (mediaUrl : string) (allowedHostnames : gset string)
    : bool :=
  if negb (JS.truthy mediaUrl) then false
  else
    match new_URL mediaUrl with
    | Some u =>
        (String.eqb (protocol u) "http:" || String.eqb (protocol u) "https:") &&
        bool_decide (hostname u ∈ allowedHostnames)
    | None => false
    end.

(** One iteration of [for (const post of media)]. *)
Definition sanitize_iteration (allowedHostnames : gset string)
    (st : Sanitizing) (post : MediaPost) : Sanitizing :=
  if negb (bool_decide (mediaType post = image)) then
    {| sanitizedImages := sanitizedImages st;
       invalidUrlCount := invalidUrlCount st;
       nonImageCount := nonImageCount st + 1 |}
  else
    let isValid := isValidAndAllowedUrl (mediaUrl post) allowedHostnames in
    if isValid then
      {| sanitizedImages := sanitizedImages st ++ [post];
         invalidUrlCount := invalidUrlCount st;
         nonImageCount := nonImageCount st |}
    else
      {| sanitizedImages := sanitizedImages st;
         invalidUrlCount := invalidUrlCount st + 1;
         nonImageCount := nonImageCount st |}.

Definition sanitizeAndFilterImages (media : list MediaPost)
    (allowedHostnames : gset string) : list MediaPost :=
  sanitizedImages
    (fold_left (sanitize_iteration allowedHostnames) media
       {| sanitizedImages := []; invalidUrlCount := 0; nonImageCount := 0 |}).

(** The test the loop applies to a post, as a proposition. *)
Definition kept (allowedHostnames : gset string) (post : MediaPost) : Prop :=
  mediaType post = image ∧
  isValidAndAllowedUrl (mediaUrl post) allowedHostnames = true.

(** The policy in the words of the specification: a post survives when
    its type is image and its URL parses with scheme http or https and a
    host name of the allowed set. *)
Definition passes_policy (allowed : gset string) (post : MediaPost) : Prop :=
  mediaType post = image ∧
  ∃ u, new_URL (mediaUrl post) = Some u ∧
       (protocol u = "http:" ∨ protocol u = "https:") ∧
       hostname u ∈ allowed.

Global Instance passes_policy_dec (allowed : gset string) (post : MediaPost) :
  Decision (passes_policy allowed post).
Proof.
  unfold passes_policy.
  destruct (new_URL (mediaUrl post)) as [u|] eqn:Hu.
  - destruct (decide (mediaType post = image ∧
                      (protocol u = "http:" ∨ protocol u = "https:") ∧
                      hostname u ∈ allowed)) as [H|H].
    + left. destruct H as (H1 & H2 & H3). split; [exact H1|]. exists u. auto.
    + right. intros (H1 & u' & Hu' & H2 & H3). apply H.
      injection Hu' as <-. auto.
  - right. intros (_ & u' & Hu' & _). discriminate.
Defined.

End Sanitizer.

(** ** The conditions of the classifier rules in the words of the specification *)

(** Rule 1 as the specification words it: the content hint marks an image,
    or the target URL has an image extension and no gallery substring. *)
Definition direct_image_condition (postData : RedditPostData) : Prop :=
  post_hint postData = Some hint_image ∨
  (image_extension_test (url postData) = true ∧
   JS.includes (url postData) "gallery" = false).

(** The same sentence with the gallery test read as applying to both
    alternatives. *)
Definition direct_image_condition_strict (postData : RedditPostData) : Prop :=
  (post_hint postData = Some hint_image ∨
   image_extension_test (url postData) = true) ∧
  JS.includes (url postData) "gallery" = false.

(** Rule 2: flagged as video, with a fallback video URL present. *)
Definition hosted_video_condition (postData : RedditPostData) : Prop :=
  is_video postData = true ∧
  ∃ u, media_fallback_url postData = Some u ∧ u ≠ "".

(** Entries that the fetcher leaves out: not of kind [t3], pinned, or a
    gallery. *)
Definition out_of_scope (child : RedditListingChild) : Prop :=
  child_kind child ≠ "t3" ∨
  ∃ postData, child_data child = Some postData ∧
    (JS.truthy_flag (stickied postData) = true ∨
     JS.truthy_flag (is_gallery postData) = true).

(** Both credentials are set in the process environment. *)
Definition credentials_configured (env : Env) : Prop :=
  JS.truthy_string (REDDIT_CLIENT_ID env) = true ∧
  JS.truthy_string (REDDIT_CLIENT_SECRET env) = true.

(** The grant attempt of a call made in world [w] fails: the request is
    rejected, or answered with a non-2xx status, or with a body that does
    not decode, or with a token response that is not a non-empty bearer
    token. *)
Definition grant_fails (env : Env) (w : World) : Prop :=
  match grant_endpoint env (length (sent w)) (the_grant_request env) with
  | Rejected _ => True
  | Responded response =>
      ok response = false ∨
      (∃ e, json response = inl e) ∨
      (∃ tokenData, json response = inr tokenData ∧
         (token_type tokenData ≠ "bearer" ∨ access_token tokenData = ""))
  end.

(** ** Sample inputs *)

Module Sample.

(** The text of [s] before the first ['/'], and the rest from it on. *)
Fixpoint host_and_path (s : string) : string * string :=
  match s with
  | EmptyString => (EmptyString, EmptyString)
  | String c s' =>
      if Ascii.eqb c "/" then (EmptyString, s)
      else let '(h, p) := host_and_path s' in (String c h, p)
  end.

(** A URL parser for the plain absolute URLs of the samples
    ([scheme://host/path], lower case, no port, query or fragment), on
    which it yields the components that the platform's constructor
    yields; everything else is rejected. *)
Definition simple_URL (s : string) : option URL :=
  match String.index 0 "://" s with
  | Some (S n) =>
      let '(h, p) := host_and_path (String.substring (S n + 3) (String.length s) s) in
      if JS.truthy h then
        Some {| protocol := String.substring 0 (S n) s +:+ ":";
                hostname := h;
                pathname := if JS.truthy p then p else "/" |}
      else None
  | _ => None
  end.

Definition post (u : string) (hint : option PostHint) : RedditPostData :=
  {| post_title := "A post"; permalink := "/r/pics/comments/abc/a_post/";
     url := u; post_hint := hint; is_video := false;
     is_gallery := None; stickied := Some false; domain := "i.redd.it";
     preview := None; media := None; secure_media_embed := None |}.

Definition hosted_video : Media :=
  {| reddit_video := Some {| fallback_url := Some "https://v.redd.it/xyz/DASH_720.mp4" |};
     oembed := None |}.

(** An entry with the image hint and the video flag, with target [u]. *)
Definition image_and_video (u : string) : RedditPostData :=
  {| post_title := "Both"; permalink := "/r/pics/comments/def/both/";
     url := u; post_hint := Some hint_image; is_video := true;
     is_gallery := None; stickied := None; domain := "v.redd.it";
     preview := None; media := Some hosted_video; secure_media_embed := None |}.

Definition video_post : RedditPostData :=
  {| post_title := "A clip"; permalink := "/r/pics/comments/ghi/a_clip/";
     url := "https://v.redd.it/xyz"; post_hint := Some hint_hosted_video;
     is_video := true; is_gallery := None; stickied := None;
     domain := "v.redd.it"; preview := None; media := Some hosted_video;
     secure_media_embed := None |}.

Definition pinned_post : RedditPostData :=
  {| post_title := "Rules"; permalink := "/r/pics/comments/jkl/rules/";
     url := "https://i.redd.it/x.png"; post_hint := None; is_video := false;
     is_gallery := None; stickied := Some true; domain := "i.redd.it";
     preview := None; media := None; secure_media_embed := None |}.

Definition t3 (postData : RedditPostData) : RedditListingChild :=
  {| child_kind := "t3"; child_data := Some postData |}.

Definition hot_children : list RedditListingChild :=
  [ t3 pinned_post;
    t3 (post "https://i.redd.it/abc.jpg" (Some hint_image));
    t3 video_post;
    t3 (post "https://i.redd.it/abc.jpg" None);
    t3 (post "https://example.org/pic.PNG" None) ].

Definition hot_listing : RedditApiResponse :=
  {| listing_kind := "Listing";
     listing_data := Some {| children := Some hot_children |} |}.

Definition bearer_token : RedditTokenResponse :=
  {| access_token := "token-1"; token_type := "bearer"; expires_in := 3600 |}.

(** An environment whose grant endpoint answers with status [gs] and
    whose hot-listing endpoint answers with status [hs]; the bodies are
    well-formed. The clock starts at 1000000 and advances by one
    millisecond per reading. *)
Definition env_with (id secret : option string) (gs hs : Z) : Env :=
  {| REDDIT_CLIENT_ID := id;
     REDDIT_CLIENT_SECRET := secret;
     clock := fun n => 1000000 + Z.of_nat n;
     grant_endpoint := fun _ _ =>
       Responded {| status := gs; text := "grant body"; json := inr bearer_token |};
     hot_endpoint := fun _ _ =>
       Responded {| status := hs; text := "listing body"; json := inr hot_listing |} |}.

Definition env_ok : Env := env_with (Some "my-id") (Some "my-secret") 200 200.

Definition env_no_credentials : Env := env_with None None 200 200.

Definition fresh_world : World :=
  {| redditAccessToken := None; tokenExpiryTime := None;
     clock_reads := 0; sent := [] |}.

(** A world whose cached token expires at [e]. *)
Definition cached_world (e : Z) : World :=
  {| redditAccessToken := Some "token-0"; tokenExpiryTime := Some e;
     clock_reads := 0; sent := [] |}.

Definition pics_url : string := "https://www.reddit.com/r/pics/".

(** The outcome of fetching r/pics, from a fresh process with
    credentials, when the hot-listing endpoint answers with status [hs]. *)
Definition outcome_on_status (hs : Z) : Outcome (list MediaPost) :=
  (scrapeTrendyImages simple_URL
     (env_with (Some "my-id") (Some "my-secret") 200 hs)
     pics_url 25 fresh_world).1.

Definition mixed_posts : list MediaPost :=
  [ {| mediaUrl := "https://i.redd.it/abc.jpg"; mediaType := image;
       title := "kept"; redditUrl := "https://www.reddit.com/r/pics/1" |};
    {| mediaUrl := "https://v.redd.it/xyz/DASH_720.mp4"; mediaType := video;
       title := "video"; redditUrl := "https://www.reddit.com/r/pics/2" |};
    {| mediaUrl := "ftp://i.redd.it/abc.jpg"; mediaType := image;
       title := "scheme"; redditUrl := "https://www.reddit.com/r/pics/3" |};
    {| mediaUrl := "https://example.org/pic.png"; mediaType := image;
       title := "host"; redditUrl := "https://www.reddit.com/r/pics/4" |};
    {| mediaUrl := "not a url"; mediaType := image;
       title := "garbage"; redditUrl := "https://www.reddit.com/r/pics/5" |};
    {| mediaUrl := "https://imgur.com/def.gif"; mediaType := image;
       title := "kept too"; redditUrl := "https://www.reddit.com/r/pics/6" |} ].

End Sample.

(** ** More string primitives *)

Module JSString.

(** [s.split(sep)] for a non-empty separator string: scanning from the
    left, each occurrence of [sep] ends a piece and the scan resumes after
    it. [cur] is the piece being read, in reverse; [skip] counts the
    characters of a found separator still to be passed over. *)
Fixpoint split_by_go (sep s cur : string) (skip : nat) : list string :=
  match s with
  | EmptyString => [String.rev cur]
  | String c s' =>
      match skip with
      | S k => split_by_go sep s' cur k
      | O =>
          if JS.startsWith s sep
          then String.rev cur :: split_by_go sep s' EmptyString (String.length sep - 1)
          else split_by_go sep s' (String c cur) 0
      end
  end.

Definition split_by (s sep : string) : list string :=
  split_by_go sep s EmptyString 0.

(** [a.join(sep)] *)
Definition join (a : list string) (sep : string) : string := String.concat sep a.

(** [x || d] for strings. *)
Definition or_else (x : option string) (d : string) : string :=
  if JS.truthy_string x then the_string x else d.

(** A post title comes from the listing and is an arbitrary JavaScript
    string: a sequence of UTF-16 code units, each a number below 65536.
    [replace] with a regular expression without the [u] flag, [trim] and
    [substring] all work code unit by code unit. *)
Definition CodeUnits : Type := list N.

(** The code units of a string of ASCII characters. *)
Definition code_units (s : string) : CodeUnits :=
  N_of_ascii <$> list_ascii_of_string s.

(** The class [\s] of a regular expression, which is also what [trim]
    removes: the white space and the line terminators of ECMAScript, that
    is TAB, LF, VT, FF, CR, SPACE, NBSP, U+1680, U+2000 to U+200A, U+2028,
    U+2029, U+202F, U+205F, U+3000 and U+FEFF. *)
Definition is_space (c : N) : bool :=
  ((9 <=? c) && (c <=? 13) || (c =? 32) || (c =? 160) || (c =? 0x1680) ||
   (0x2000 <=? c) && (c <=? 0x200a) || (c =? 0x2028) || (c =? 0x2029) ||
   (c =? 0x202f) || (c =? 0x205f) || (c =? 0x3000) || (c =? 0xfeff))%N.

Fixpoint trimStart (s : CodeUnits) : CodeUnits :=
  match s with
  | [] => []
  | c :: s' => if is_space c then trimStart s' else s
  end.

(** [s.trim()] *)
Definition trim (s : CodeUnits) : CodeUnits :=
  rev (trimStart (rev (trimStart s))).

Fixpoint all_chars (p : ascii -> bool) (s : string) : bool :=
  match s with
  | EmptyString => true
  | String c s' => p c && all_chars p s'
  end.

(** [a[a.length - 1]], the value of [a.pop()]. *)
Definition last_piece (a : list string) : option string := List.last (map Some a) None.

End JSString.

(** ** Well-formed token caches *)

(** The two cache variables are both null or both set, and a cached token
    is not the empty string. *)
Definition cache_wf (w : World) : Prop :=
  match redditAccessToken w, tokenExpiryTime w with
  | None, None => True
  | Some t, Some _ => t ≠ ""
  | _, _ => False
  end.

(** ** The worlds of a running process *)

(** The worlds that a process with environment [env] can be in. The
    module is loaded with both cache variables null (lines 138-139); from
    then on the world changes only by a reading of the clock, by a call of
    the token manager or by a call of the fetcher, which are the only code
    that assigns the cache variables. The server action is made of a call
    of the fetcher and a reading of the clock. *)
Inductive reachable (new_URL : string -> option URL) (env : Env) : World -> Prop :=
| reachable_loaded (w : World) :
    redditAccessToken w = None -> tokenExpiryTime w = None ->
    reachable new_URL env w
| reachable_Date_now (w : World) :
    reachable new_URL env w -> reachable new_URL env (tick w)
| reachable_getRedditAccessToken (w : World) :
    reachable new_URL env w ->
    reachable new_URL env (getRedditAccessToken env w).2
| reachable_scrapeTrendyImages (w : World) (subredditUrl : string) (limit : Z) :
    reachable new_URL env w ->
    reachable new_URL env (scrapeTrendyImages new_URL env subredditUrl limit w).2.


(** The integers that a JavaScript number holds exactly. Sums, differences
    and products of such numbers are exact whenever the result is again one
    of them. *)
Definition safe_integer (z : Z) : Prop :=
  - 9007199254740991 <= z <= 9007199254740991.

(** The accumulator [forEach] starts from. *)
Definition nothing_yet : Accumulated := {| mediaPosts := []; skippedCount := 0 |}.

(** The post that the callback lists for an entry when nothing has been
    listed before it, if any. *)
Definition listed_alone (child : RedditListingChild) : list MediaPost :=
  mediaPosts (forEach_callback nothing_yet child).

(** ** The allowed host names in insertion order *)

(** [set.add(x)] on a [Set] seen as the list of its elements in insertion
    order. *)
Definition Set_add (l : list string) (x : string) : list string :=
  if bool_decide (x ∈ l) then l else l ++ [x].

(** [Array.from(getAllowedHostnames())]: the elements in the order in
    which the set received them. *)
Definition allowed_in_order (configHostnames : list string) : list string :=
  Set_add
    (fold_left Set_add (List.filter JS.truthy configHostnames)
       (fold_left Set_add
          ["i.redd.it"; "preview.redd.it"; "imgur.com"; "files.catbox.moe"] []))
    "picsum.photos".

(** ** The server action of [actions.ts] *)

Record ScrapeState := {
  media_of : option (list MediaPost);
  error_of : option string;
  message_of : option string;
  timestamp : Z
}.

(** The two fields of the submitted form; [FormData.get] yields [null] for
    a field that is absent. *)
Record FormData := {
  form_subredditUrl : option string;
  form_limit : option string
}.

(** The result of [schema.safeParse(x)]: the parsed data, or the message
    of the first issue ([error.errors[0]?.message]). *)
Inductive SafeParse (A : Type) :=
| parse_success (data : A)
| parse_failure (first_message : option string).

Arguments parse_success {A} _.
Arguments parse_failure {A} _.

Definition msg_action_credentials : string :=
  "Reddit API credentials (REDDIT_CLIENT_ID, REDDIT_CLIENT_SECRET) are not configured on the server. Please set them in the .env file.".

Definition msg_found_none (subredditName : string) : string :=
  "Found 0 suitable images in r/" +:+ subredditName +:+ " with the current filters.".

Definition msg_none_matching (count : nat) (allowed : list string) : string :=
  "Reddit API returned " +:+ pretty count +:+
  " posts, but none contained direct image links matching the criteria (e.g., not videos, gifs, galleries, or filtered by allowed domains: " +:+
  JSString.join allowed ", " +:+ ")".

Definition msg_fetched (count : nat) : string :=
  "Successfully fetched " +:+ pretty count +:+ " images.".

(** The rewriting of a caught error's message in the final [catch]. *)
Definition action_error_message (m : string) : string :=
  if JS.includes m "401 Unauthorized" then
    "Authentication failed with Reddit API (401). Please check your REDDIT_CLIENT_ID and REDDIT_CLIENT_SECRET in the .env file. Details: " +:+ m
  else if JS.includes m "403 Forbidden" then
    "Access denied by Reddit API (403). Check API key permissions, User-Agent, or potential IP restrictions. Details: " +:+ m
  else if JS.includes m "404" then
    "Subreddit not found or private (404). Please check the URL. Details: " +:+ m
  else if JS.includes m "429 Too Many Requests" then
    "Rate limited by Reddit API (429). Please wait before trying again. Details: " +:+ m
  else m.

(** [validatedUrl.split('/r/')[1]?.split('/')[0] || 'the subreddit'] *)
Definition name_for_message (validatedUrl : string) : string :=
  JSString.or_else
    (Some (JSString.split_by validatedUrl "/r/") ?. (fun a => a !! 1%nat)
       ?. (fun s => JSString.split_by s "/" !! 0%nat))
    "the subreddit".

Section Action.

(** The platform's [new URL(s)]. *)
Variable new_URL : string -> option URL.

Variable env : Env.

(** [urlSchema.safeParse] and [limitSchema.safeParse] of the validation
    library, with the schemas of the file. *)
Variable urlSchema_safeParse : option string -> SafeParse string.
Variable limitSchema_safeParse : option string -> SafeParse Z.

(** The host names of [nextConfig.images.remotePatterns]. *)
Variable configHostnames : list string.

(** The state returned on a failure, stamped with the time of the return. *)
Definition failed (errorMessage : string) : Async ScrapeState :=
  now <- Date_now env ;;
  ret {| media_of := None; error_of := Some errorMessage;
         message_of := None; timestamp := now |}.

(** The three early returns and the [catch] spread [prevState] and then
    set all four fields, so the previous state leaves no trace. The branch
    for [rawMedia === null] has no counterpart: [scrapeTrendyImages] returns
    an array or throws. *)
Definition scrapeSubredditAction (prevState : ScrapeState) (formData : FormData)
    : Async ScrapeState :=
  let subredditUrl := form_subredditUrl formData in
  let limitValue := form_limit formData in
  match urlSchema_safeParse subredditUrl with
  | parse_failure m => failed (JSString.or_else m "Invalid URL provided.")
  | parse_success validatedUrl =>
      match limitSchema_safeParse limitValue with
      | parse_failure m => failed (JSString.or_else m "Invalid limit value provided.")
      | parse_success validatedLimit =>
          if negb (JS.truthy_string (REDDIT_CLIENT_ID env)) ||
             negb (JS.truthy_string (REDDIT_CLIENT_SECRET env))
          then failed msg_action_credentials
          else
            try_catch
              (rawMedia <- scrapeTrendyImages new_URL env validatedUrl validatedLimit ;;
               let allowedHostnames := getAllowedHostnames configHostnames in
               let filteredImages :=
                 sanitizeAndFilterImages new_URL rawMedia allowedHostnames in
               if Nat.eqb (length filteredImages) 0 then
                 let subredditName := name_for_message validatedUrl in
                 let messageText :=
                   if Nat.ltb 0 (length rawMedia)
                   then msg_none_matching (length rawMedia)
                          (allowed_in_order configHostnames)
                   else msg_found_none subredditName in
                 now <- Date_now env ;;
                 ret {| media_of := Some []; error_of := None;
                        message_of := Some messageText; timestamp := now |}
               else
                 let successMessage := msg_fetched (length filteredImages) in
                 now <- Date_now env ;;
                 ret {| media_of := Some filteredImages; error_of := None;
                        message_of := Some successMessage; timestamp := now |})
              (fun error => failed (action_error_message (JS.message error)))
      end
  end.

(** The action stops before any fetch: a field does not validate or a
    credential is missing. *)
Definition fails_early (formData : FormData) : Prop :=
  (∃ m, urlSchema_safeParse (form_subredditUrl formData) = parse_failure m) ∨
  (∃ m, limitSchema_safeParse (form_limit formData) = parse_failure m) ∨
  ¬ credentials_configured env.

End Action.

(** ** The download name of [media-grid.tsx] *)

(** The code units that [/[^a-z0-9_\-\s]/gi] leaves alone: the ASCII
    letters of both cases, the digits, the underscore, the hyphen and the
    class [\s]. Without the [u] flag, ignoring case compares the upper-case
    forms of single code units and never lets a code unit from 128 on stand
    for an ASCII one, so no other letter is taken for one of [a-z]. *)
Definition filename_char (c : N) : bool :=
  ((97 <=? c) && (c <=? 122) || (65 <=? c) && (c <=? 90) ||
   (48 <=? c) && (c <=? 57) || (c =? 95) || (c =? 45))%N ||
  JSString.is_space c.

(** [title.replace(/[^a-z0-9_\-\s]/gi, '_').trim().substring(0, 50) || 'download'] *)
Definition download_stem (title : JSString.CodeUnits) : JSString.CodeUnits :=
  let cleaned :=
    take 50
      (JSString.trim ((fun c => if filename_char c then c else 95%N) <$> title)) in
  match cleaned with
  | [] => JSString.code_units "download"
  | _ :: _ => cleaned
  end.

Definition knownExtensions : list string :=
  ["jpg"; "jpeg"; "png"; "gif"; "webp"; "mp4"; "webm"].

(** The extension chosen in [handleDownload] for a media URL and the type
    of the fetched blob. *)
Definition download_extension (url blobType : string) : string :=
  let extension :=
    JSString.or_else
      (JSString.last_piece (JSString.split_by url ".")
         ?. (fun s => JSString.split_by s "?" !! 0%nat)
         ?. (fun s => Some (JS.toLowerCase s)))
      "jpg" in
  if bool_decide (extension ∈ knownExtensions) then extension
  else if JS.truthy blobType && JS.startsWith blobType "image/" then
    JSString.or_else (JSString.split_by blobType "/" !! 1%nat) "jpg"
  else if JS.truthy blobType && JS.startsWith blobType "video/" then
    JSString.or_else (JSString.split_by blobType "/" !! 1%nat) "mp4"
  else "jpg".

(** [link.download]; the extension is made of the characters of the URL
    or of the MIME type, which are ASCII. *)
Definition download_name (title : JSString.CodeUnits) (url blobType : string)
    : JSString.CodeUnits :=
  (download_stem title ++ JSString.code_units "." ++
   JSString.code_units (download_extension url blobType))%list.

(** ** More sample inputs *)

Module MoreSamples.

(** An environment with credentials whose grant endpoint settles as
    [grant] says and whose hot-listing endpoint answers 200 with [body]. *)
Definition env_of (grant : FetchOutcome RedditTokenResponse)
    (body : JS.Error + RedditApiResponse) : Env :=
  {| REDDIT_CLIENT_ID := Some "my-id";
     REDDIT_CLIENT_SECRET := Some "my-secret";
     clock := fun n => 1000000 + Z.of_nat n;
     grant_endpoint := fun _ _ => grant;
     hot_endpoint := fun _ _ =>
       Responded {| status := 200; text := "listing body"; json := body |} |}.

Definition token_response (t : RedditTokenResponse) : Response RedditTokenResponse :=
  {| status := 200; text := "grant body"; json := inr t |}.

Definition short_lived_token : RedditTokenResponse :=
  {| access_token := "token-2"; token_type := "bearer"; expires_in := 120 |}.

Definition mac_token : RedditTokenResponse :=
  {| access_token := "token-3"; token_type := "mac"; expires_in := 3600 |}.

Definition unavailable : Response RedditTokenResponse :=
  {| status := 503; text := "unavailable"; json := inl (JS.mkError "Unexpected token") |}.

Definition not_a_listing : RedditApiResponse :=
  {| listing_kind := "t3"; listing_data := None |}.

Definition empty_listing : RedditApiResponse :=
  {| listing_kind := "Listing"; listing_data := Some {| children := Some [] |} |}.

Definition env_short_lived : Env :=
  env_of (Responded (token_response short_lived_token)) (inr Sample.hot_listing).

Definition env_mac : Env :=
  env_of (Responded (token_response mac_token)) (inr Sample.hot_listing).

Definition env_unavailable : Env :=
  env_of (Responded unavailable) (inr Sample.hot_listing).

Definition env_rejecting : Env :=
  env_of (Rejected (JS.mkError "fetch failed")) (inr Sample.hot_listing).

Definition env_empty_listing : Env :=
  env_of (Responded (token_response Sample.bearer_token)) (inr empty_listing).

Definition env_not_a_listing : Env :=
  env_of (Responded (token_response Sample.bearer_token)) (inr not_a_listing).

(** An environment whose grant endpoint issues a short-lived token to the
    first request of the process and is unavailable afterwards. *)
Definition env_flaky : Env :=
  {| REDDIT_CLIENT_ID := Some "my-id";
     REDDIT_CLIENT_SECRET := Some "my-secret";
     clock := fun n => 1000000 + Z.of_nat n;
     grant_endpoint := fun n _ =>
       if Nat.eqb n 0 then Responded (token_response short_lived_token)
       else Responded unavailable;
     hot_endpoint := fun _ _ =>
       Responded {| status := 200; text := "listing body";
                    json := inr Sample.hot_listing |} |}.

(** The world of a process after its first call of the token manager. *)
Definition after_first_call (env : Env) : World :=
  (getRedditAccessToken env Sample.fresh_world).2.

(** Validators that accept every field that is present. *)
Definition accept_url (v : option string) : SafeParse string :=
  match v with
  | Some u => parse_success u
  | None => parse_failure (Some "Please enter a valid URL.")
  end.

Definition accept_limit (v : option string) : SafeParse Z :=
  match v with
  | Some _ => parse_success 25
  | None => parse_failure (Some "Limit must be positive.")
  end.

Definition initial_state : ScrapeState :=
  {| media_of := None; error_of := None; message_of := None; timestamp := 0 |}.

Definition pics_form : FormData :=
  {| form_subredditUrl := Some Sample.pics_url; form_limit := Some "25" |}.

Definition no_url_form : FormData :=
  {| form_subredditUrl := None; form_limit := Some "25" |}.

End MoreSamples.

(** * Properties *)

(** ** Strings *)

Lemma truthy_nonempty (s : string) : JS.truthy s = true ↔ s ≠ "".
Proof. destruct s; simpl; split; intros; congruence. Qed.

Lemma includes_cons (c : ascii) (s sub : string) :
  JS.includes s sub = true → JS.includes (String c s) sub = true.
Proof. intros H. simpl. rewrite H. apply orb_true_r. Qed.

(** A marker found in the tail of a message is found in the message. *)
Lemma includes_app_r (p s sub : string) :
  JS.includes s sub = true → JS.includes (p +:+ s) sub = true.
Proof.
  intros H. induction p as [|c p IH]; [exact H|].
  change (String c p +:+ s) with (String c (p +:+ s)). by apply includes_cons.
Qed.

(** ** The classifier and the callback *)

Lemma already_listed_false (posts : list MediaPost) (u : string) :
  already_listed posts u = false → u ∉ (mediaUrl <$> posts).
Proof.
  induction posts as [|p posts IH]; simpl.
  - intros _. apply not_elem_of_nil.
  - intros H. apply orb_false_iff in H as [Hp Hrest].
    apply String.eqb_neq in Hp. rewrite not_elem_of_cons. split; [congruence | auto].
Qed.

(** What one run of the callback can do: skip the entry, or append one
    image post whose URL is the classifier's and is not yet listed. *)
Lemma forEach_callback_with_cases
    (classify : RedditPostData → option FoundMedia)
    (acc : Accumulated) (child : RedditListingChild) :
  forEach_callback_with classify acc child = skip acc ∨
  ∃ postData foundMedia p,
    child_kind child = "t3" ∧ child_data child = Some postData ∧
    JS.truthy_flag (stickied postData) = false ∧
    JS.truthy_flag (is_gallery postData) = false ∧
    classify postData = Some foundMedia ∧
    mediaUrl p = found_mediaUrl foundMedia ∧
    mediaType p = image ∧
    (mediaUrl p ∉ (mediaUrl <$> mediaPosts acc)) ∧
    forEach_callback_with classify acc child =
      {| mediaPosts := mediaPosts acc ++ [p]; skippedCount := skippedCount acc |}.
Proof.
  unfold forEach_callback_with.
  destruct (String.eqb (child_kind child) "t3") eqn:Hkind; simpl; [|by left].
  apply String.eqb_eq in Hkind.
  destruct (child_data child) as [postData|]; [|by left].
  destruct (JS.truthy_flag (stickied postData)) eqn:Hs; [by left|].
  destruct (JS.truthy_flag (is_gallery postData)) eqn:Hg; [by left|].
  destruct (classify postData) as [foundMedia|] eqn:Hc; [|by left].
  destruct (JS.truthy (found_mediaUrl foundMedia)); simpl; [|by left].
  destruct (bool_decide (found_mediaType foundMedia = image)) eqn:Ht; [|by left].
  apply bool_decide_eq_true in Ht.
  destruct (already_listed (mediaPosts acc) (found_mediaUrl foundMedia)) eqn:Hl;
    simpl; [by left|].
  right. eexists postData, foundMedia, _.
  repeat split; try done.
  simpl. by apply already_listed_false.
Qed.

Lemma fold_left_invariant {A B : Type} (P : A → Prop) (f : A → B → A)
    (l : list B) (a : A) :
  P a → (∀ a b, P a → P (f a b)) → P (fold_left f l a).
Proof.
  intros Ha Hstep. revert a Ha.
  induction l as [|b l IH]; simpl; intros a Ha; [exact Ha|].
  apply IH, Hstep, Ha.
Qed.

(** The list built by the callback never holds two posts with one URL. *)
Lemma forEach_callback_NoDup (acc : Accumulated) (child : RedditListingChild) :
  NoDup (mediaUrl <$> mediaPosts acc) →
  NoDup (mediaUrl <$> mediaPosts (forEach_callback acc child)).
Proof.
  intros Hacc.
  destruct (forEach_callback_with_cases classifyMedia acc child)
    as [E|(pd & fm & p & _ & _ & _ & _ & _ & _ & _ & Hfresh & E)];
    unfold forEach_callback; rewrite E; simpl.
  - exact Hacc.
  - rewrite fmap_app. apply NoDup_app. split; [exact Hacc|]. split.
    + intros x Hx Hx'. apply list_elem_of_singleton in Hx'. by subst.
    + apply NoDup_singleton.
Qed.

Lemma forEach_children_NoDup (items : list RedditListingChild) :
  NoDup (mediaUrl <$> mediaPosts (forEach_children items)).
Proof.
  unfold forEach_children.
  apply (fold_left_invariant (λ acc, NoDup (mediaUrl <$> mediaPosts acc))).
  - apply NoDup_nil_2.
  - intros acc child. apply forEach_callback_NoDup.
Qed.

(** The list built by the callback holds image posts only. *)
Lemma forEach_children_images (items : list RedditListingChild) :
  Forall (λ p, mediaType p = image) (mediaPosts (forEach_children items)).
Proof.
  unfold forEach_children.
  apply (fold_left_invariant
           (λ acc, Forall (λ p, mediaType p = image) (mediaPosts acc))).
  - constructor.
  - intros acc child Hacc.
    destruct (forEach_callback_with_cases classifyMedia acc child)
      as [E|(pd & fm & p & _ & _ & _ & _ & _ & _ & Himg & _ & E)];
      unfold forEach_callback; rewrite E; simpl.
    + exact Hacc.
    + apply Forall_app. split; [exact Hacc|]. by constructor.
Qed.

(** Skipping commutes with the callback: the counter is only ever
    incremented, never read. *)
Lemma forEach_callback_skip (acc : Accumulated) (child : RedditListingChild) :
  forEach_callback (skip acc) child = skip (forEach_callback acc child).
Proof.
  unfold forEach_callback, forEach_callback_with, skip; simpl.
  repeat case_match; reflexivity.
Qed.

Lemma fold_forEach_callback_skip (l : list RedditListingChild) (acc : Accumulated) :
  fold_left forEach_callback l (skip acc) = skip (fold_left forEach_callback l acc).
Proof.
  revert acc. induction l as [|c l IH]; intros acc; simpl; [reflexivity|].
  by rewrite forEach_callback_skip, IH.
Qed.

Lemma out_of_scope_skipped
    (classify : RedditPostData → option FoundMedia)
    (acc : Accumulated) (child : RedditListingChild) :
  out_of_scope child → forEach_callback_with classify acc child = skip acc.
Proof.
  intros [Hkind|(pd & Hdata & Hflag)]; unfold forEach_callback_with.
  - apply String.eqb_neq in Hkind. by rewrite Hkind.
  - destruct (String.eqb (child_kind child) "t3"); simpl; [|reflexivity].
    rewrite Hdata. destruct Hflag as [->| ->]; [reflexivity|].
    by destruct (JS.truthy_flag (stickied pd)).
Qed.

(** ** The monad *)

Lemma bind_returned {A B : Type} (m : Async A) (k : A → Async B)
    (w w' : World) (b : B) :
  bind m k w = (Returned b, w') →
  ∃ a w1, m w = (Returned a, w1) ∧ k a w1 = (Returned b, w').
Proof.
  unfold bind. destruct (m w) as [[a|e] w1]; [eauto | discriminate].
Qed.

Lemma try_catch_returned {A : Type} (m : Async A) (handler : JS.Error → Async A)
    (w w' : World) (a : A) :
  try_catch m handler w = (Returned a, w') →
  m w = (Returned a, w') ∨
  ∃ e w1, m w = (Thrown e, w1) ∧ handler e w1 = (Returned a, w').
Proof.
  unfold try_catch. destruct (m w) as [[a'|e] w1]; [by left | right; eauto].
Qed.

(** ** The listing fetcher *)

(** A successful fetch returns what the callback accumulated over the
    children of a well-formed listing. *)
Lemma scrapeTrendyImages_returned (new_URL : string → option URL) (env : Env)
    (subredditUrl : string) (limit : Z) (w w' : World) (posts : list MediaPost) :
  scrapeTrendyImages new_URL env subredditUrl limit w = (Returned posts, w') →
  ∃ listing items,
    listing_children listing = Some items ∧
    posts = mediaPosts (forEach_children items).
Proof.
  unfold scrapeTrendyImages.
  destruct (extractSubredditName new_URL subredditUrl) as [name|]; [|discriminate].
  destruct (JS.truthy name); simpl; [|discriminate].
  intros H. apply bind_returned in H as (tok & w1 & _ & H).
  apply try_catch_returned in H as [H|(e & w2 & _ & H)].
  - apply bind_returned in H as (response & w2 & _ & H).
    destruct (ok response); simpl in H.
    + apply bind_returned in H as (listing & w3 & _ & H).
      destruct (listing_children listing) as [items|] eqn:Hitems; [|discriminate].
      injection H as <- _. eauto.
    + unfold bind, clear_cache, set_cache, throw in H.
      repeat case_match; discriminate.
  - destruct (is_specific_error e); discriminate.
Qed.

(** C1. Whenever [scrapeTrendyImages] returns a list, no two of its
    elements have the same [mediaUrl]: the callback appends a classified
    entry only after comparing its URL with every URL appended so far. *)
Theorem scrapeTrendyImages_unique_mediaUrl (new_URL : string → option URL)
    (env : Env) (subredditUrl : string) (limit : Z) (w w' : World)
    (posts : list MediaPost) :
  scrapeTrendyImages new_URL env subredditUrl limit w = (Returned posts, w') →
  NoDup (mediaUrl <$> posts).
Proof.
  intros H. apply scrapeTrendyImages_returned in H as (listing & items & _ & ->).
  apply forEach_children_NoDup.
Qed.

(** C2. Whenever [scrapeTrendyImages] returns a list, every element has
    [mediaType] image: video and redgifs classifications are discarded by
    the callback itself, so only image entries are listed and compared. *)
Theorem scrapeTrendyImages_only_images (new_URL : string → option URL)
    (env : Env) (subredditUrl : string) (limit : Z) (w w' : World)
    (posts : list MediaPost) :
  scrapeTrendyImages new_URL env subredditUrl limit w = (Returned posts, w') →
  Forall (λ p, mediaType p = image) posts.
Proof.
  intros H. apply scrapeTrendyImages_returned in H as (listing & items & _ & ->).
  apply forEach_children_images.
Qed.

(** C3, as amended. Take an entry that meets the test of rule 1: its
    content hint marks an image, or its target URL has an image extension.
    If its target URL is non-empty and free of the gallery substring, it
    is classified as an image with the target URL, also when it meets the
    hosted-video condition: rule 1 is tried first. If its target URL is
    empty or contains the gallery substring, it is not classified at all,
    whatever else it carries: rule 2 and the later rules are not tried. *)
Theorem classifyMedia_rule1_first (postData : RedditPostData) :
  post_hint postData = Some hint_image ∨
  image_extension_test (url postData) = true →
  (url postData ≠ "" →
   JS.includes (url postData) "gallery" = false →
   hosted_video_condition postData →
   classifyMedia postData =
     Some {| found_mediaUrl := url postData; found_mediaType := image |}) ∧
  (url postData = "" ∨ JS.includes (url postData) "gallery" = true →
   classifyMedia postData = None).
Proof.
  intros Hrule1. unfold classifyMedia.
  assert (rule1_test postData = true) as ->.
  { unfold rule1_test, has_hint. destruct Hrule1 as [Hhint| ->].
    - rewrite bool_decide_eq_true_2; done.
    - apply orb_true_r. }
  split.
  - intros Hurl Hgallery _. apply truthy_nonempty in Hurl. by rewrite Hurl, Hgallery.
  - intros [->| ->]; [reflexivity|]. by rewrite andb_false_r.
Qed.

(** C9. An entry that is not of kind [t3], or is pinned, or is a gallery
    is skipped: whatever the classifier is, the callback only increments
    the skip counter, and taking the entry out of the listing leaves the
    resulting list as it is. *)
Theorem out_of_scope_entries_skipped (child : RedditListingChild) :
  out_of_scope child →
  (∀ classify acc, forEach_callback_with classify acc child = skip acc) ∧
  (∀ before after,
     mediaPosts (forEach_children (before ++ child :: after)) =
       mediaPosts (forEach_children (before ++ after)) ∧
     skippedCount (forEach_children (before ++ child :: after)) =
       skippedCount (forEach_children (before ++ after)) + 1).
Proof.
  intros Hout. split.
  - intros classify acc. by apply out_of_scope_skipped.
  - intros before after. unfold forEach_children.
    assert (∀ acc, forEach_callback acc child = skip acc) as Hskip
      by (intros acc; by apply out_of_scope_skipped).
    rewrite !fold_left_app. simpl.
    rewrite Hskip, fold_forEach_callback_skip.
    split; reflexivity.
Qed.

(** ** The sanitiser *)

Section SanitizerFacts.

Variable new_URL : string → option URL.

(** The loop is a stable filter: it appends the posts that pass its
    test, in order, to what it has collected. *)
Lemma sanitize_loop (allowed : gset string) (media : list MediaPost)
    (st : Sanitizing) :
  sanitizedImages (fold_left (sanitize_iteration new_URL allowed) media st) =
  (sanitizedImages st ++ filter (kept new_URL allowed) media)%list.
Proof.
  revert st. induction media as [|post media IH]; intros st; simpl.
  - by rewrite app_nil_r.
  - rewrite IH. unfold sanitize_iteration.
    destruct (decide (kept new_URL allowed post)) as [Hk|Hk].
    + rewrite (filter_cons_True _ _ _ Hk). destruct Hk as [Himg Hv].
      rewrite (bool_decide_eq_true_2 _ Himg), Hv. simpl.
      by rewrite <- app_assoc.
    + rewrite (filter_cons_False _ _ _ Hk).
      destruct (bool_decide (mediaType post = image)) eqn:Himg; simpl; [|done].
      destruct (isValidAndAllowedUrl new_URL (mediaUrl post) allowed) eqn:Hv;
        simpl; [|done].
      exfalso. apply Hk. split; [by apply bool_decide_eq_true in Himg | done].
Qed.

Lemma sanitizeAndFilterImages_filter (allowed : gset string)
    (media : list MediaPost) :
  sanitizeAndFilterImages new_URL media allowed = filter (kept new_URL allowed) media.
Proof. unfold sanitizeAndFilterImages. by rewrite sanitize_loop. Qed.

(** With a constructor that rejects the empty string, the test of the
    code and the policy of the specification accept the same URLs. *)
Lemma isValidAndAllowedUrl_policy (allowed : gset string) (post : MediaPost) :
  new_URL "" = None →
  kept new_URL allowed post ↔ passes_policy new_URL allowed post.
Proof.
  intros Hempty. unfold kept, passes_policy, isValidAndAllowedUrl.
  split.
  - intros [Himg Hv]. split; [exact Himg|].
    destruct (JS.truthy (mediaUrl post)); simpl in Hv; [|discriminate].
    destruct (new_URL (mediaUrl post)) as [u|]; [|discriminate].
    apply andb_true_iff in Hv as [Hp Hh].
    apply orb_true_iff in Hp. apply bool_decide_eq_true in Hh.
    exists u. repeat split; [|exact Hh].
    destruct Hp as [Hp|Hp]; apply String.eqb_eq in Hp; auto.
  - intros (Himg & u & Hu & Hp & Hh). split; [exact Himg|].
    destruct (mediaUrl post) as [|c rest] eqn:Hurl; simpl.
    + congruence.
    + rewrite Hu. apply andb_true_iff. split.
      * apply orb_true_iff. destruct Hp as [->| ->]; [left|right]; reflexivity.
      * by apply bool_decide_eq_true.
Qed.

End SanitizerFacts.

Lemma filter_twice {A : Type} (P : A → Prop) `{!∀ x, Decision (P x)} (l : list A) :
  filter P (filter P l) = filter P l.
Proof.
  induction l as [|x l IH]; [reflexivity|].
  destruct (decide (P x)) as [Hx|Hx].
  - rewrite (filter_cons_True _ _ _ Hx), (filter_cons_True _ _ _ Hx). by rewrite IH.
  - by rewrite (filter_cons_False _ _ _ Hx).
Qed.

(** C4. The sanitiser is idempotent: run on its own output with the same
    allowed host names, it returns that output. *)
Theorem sanitizeAndFilterImages_idempotent (new_URL : string → option URL)
    (media : list MediaPost) (allowedHostnames : gset string) :
  sanitizeAndFilterImages new_URL
    (sanitizeAndFilterImages new_URL media allowedHostnames) allowedHostnames =
  sanitizeAndFilterImages new_URL media allowedHostnames.
Proof.
  rewrite !sanitizeAndFilterImages_filter. apply filter_twice.
Qed.

(** C5. The output of the sanitiser is the input filtered, in input
    order, by the policy: exactly the posts of type image whose URL parses
    with scheme http or https and an allowed host name, each one the very
    record of the input. The platform fact used is that the URL
    constructor rejects the empty string. *)
Theorem sanitizeAndFilterImages_policy (new_URL : string → option URL)
    (media : list MediaPost) (allowedHostnames : gset string) :
  new_URL "" = None →
  sanitizeAndFilterImages new_URL media allowedHostnames =
  filter (passes_policy new_URL allowedHostnames) media.
Proof.
  intros Hempty. rewrite sanitizeAndFilterImages_filter.
  apply list_filter_iff. intros post. by apply isValidAndAllowedUrl_policy.
Qed.

(** ** The token manager *)

Lemma credentials_configured_guard (env : Env) :
  credentials_configured env →
  negb (JS.truthy_string (REDDIT_CLIENT_ID env)) ||
  negb (JS.truthy_string (REDDIT_CLIENT_SECRET env)) = false.
Proof. intros [-> ->]. reflexivity. Qed.

Lemma cached_token_Some (w : World) (now : Z) (t : string) :
  cached_token w now = Some t ↔
  redditAccessToken w = Some t ∧ t ≠ "" ∧
  ∃ e, tokenExpiryTime w = Some e ∧ e ≠ 0 ∧ now < e.
Proof.
  unfold cached_token, JS.truthy_number. split.
  - destruct (redditAccessToken w) as [t'|]; [|discriminate].
    destruct (tokenExpiryTime w) as [e|]; [|discriminate].
    destruct (JS.truthy t') eqn:Ht; simpl; [|discriminate].
    destruct (Z.eqb_spec e 0) as [He|He]; simpl; [discriminate|].
    destruct (Z.ltb_spec now e) as [Hlt|Hge]; [|discriminate].
    intros [= <-]. apply truthy_nonempty in Ht. eauto 10.
  - intros (Ht & Hne & e & He & He0 & Hlt). rewrite Ht, He.
    apply truthy_nonempty in Hne. rewrite Hne. simpl.
    destruct (Z.eqb_spec e 0) as [E|E]; [done|]. simpl.
    destruct (Z.ltb_spec now e) as [Hlt'|Hge]; [done|lia].
Qed.

(** The hot path: a live cached token is returned; only the clock has
    been read. *)
Lemma getRedditAccessToken_hit (env : Env) (w : World) (t : string) :
  cached_token w (clock env (clock_reads w)) = Some t →
  getRedditAccessToken env w = (Returned t, tick w).
Proof.
  intros Hhit. unfold getRedditAccessToken, bind, Date_now, get_world.
  change (cached_token (tick w) (clock env (clock_reads w)))
    with (cached_token w (clock env (clock_reads w))).
  by rewrite Hhit.
Qed.

(** Without credentials a call that misses the cache fails before the
    [try] block: nothing is sent and the cache variables keep their
    values. *)
Lemma getRedditAccessToken_credentials_missing (env : Env) (w : World) :
  cached_token w (clock env (clock_reads w)) = None →
  ¬ credentials_configured env →
  getRedditAccessToken env w = (Thrown (JS.mkError msg_credentials_missing), tick w).
Proof.
  intros Hmiss Hcred. unfold getRedditAccessToken, bind, Date_now, get_world.
  change (cached_token (tick w) (clock env (clock_reads w)))
    with (cached_token w (clock env (clock_reads w))).
  rewrite Hmiss.
  destruct (JS.truthy_string (REDDIT_CLIENT_ID env)) eqn:Hid;
    destruct (JS.truthy_string (REDDIT_CLIENT_SECRET env)) eqn:Hsecret;
    simpl; try reflexivity.
  exfalso. apply Hcred. by split.
Qed.

(** Closes a goal that describes the outcome and final world of a run
    once the run has been evaluated. *)
Ltac run_ends :=
  eexists _, _; split; [reflexivity|]; simpl; repeat split; auto.

(** With credentials a call that misses the cache sends the grant
    request, exactly once, and either returns the new token, now cached,
    or throws with both cache variables cleared. *)
Lemma getRedditAccessToken_refresh (env : Env) (w : World) :
  cached_token w (clock env (clock_reads w)) = None →
  credentials_configured env →
  ∃ out w',
    getRedditAccessToken env w = (out, w') ∧
    sent w' = (sent w ++ [the_grant_request env])%list ∧
    match out with
    | Returned t => redditAccessToken w' = Some t ∧ t ≠ ""
    | Thrown _ => redditAccessToken w' = None ∧ tokenExpiryTime w' = None
    end.
Proof.
  intros Hmiss Hcred. unfold getRedditAccessToken, bind, Date_now, get_world.
  change (cached_token (tick w) (clock env (clock_reads w)))
    with (cached_token w (clock env (clock_reads w))).
  rewrite Hmiss, (credentials_configured_guard _ Hcred).
  unfold try_catch, bind, fetch. simpl.
  destruct (grant_endpoint env (length (sent w)) (the_grant_request env))
    as [e|response]; simpl.
  - unfold clear_cache, set_cache, throw.
    repeat case_match; simplify_eq; run_ends.
  - destruct (ok response); simpl.
    + unfold json_of. destruct (json response) as [e|tokenData]; simpl.
      * unfold throw, bind, clear_cache, set_cache.
        repeat case_match; simplify_eq; run_ends.
      * destruct (String.eqb (token_type tokenData) "bearer"); simpl.
        -- destruct (JS.truthy (access_token tokenData)) eqn:Htok; simpl.
           ++ apply truthy_nonempty in Htok. unfold ret. run_ends.
           ++ unfold throw. simpl. run_ends.
        -- unfold throw. simpl. run_ends.
    + destruct (status response =? 401); simpl; unfold throw; simpl; run_ends.
Qed.

Lemma grant_fails_thrown (env : Env) (w : World) :
  cached_token w (clock env (clock_reads w)) = None →
  credentials_configured env →
  grant_fails env w →
  ∃ e w', getRedditAccessToken env w = (Thrown e, w').
Proof.
  intros Hmiss Hcred Hfail. unfold getRedditAccessToken, bind, Date_now, get_world.
  change (cached_token (tick w) (clock env (clock_reads w)))
    with (cached_token w (clock env (clock_reads w))).
  rewrite Hmiss, (credentials_configured_guard _ Hcred).
  unfold try_catch, bind, fetch, grant_fails in *. simpl.
  destruct (grant_endpoint env (length (sent w)) (the_grant_request env))
    as [e|response]; simpl.
  - unfold clear_cache, set_cache, throw. repeat case_match; simplify_eq; eauto.
  - destruct Hfail as [Hok|[(e & He)|(tokenData & Ht & Hbad)]].
    + rewrite Hok. simpl. unfold clear_cache, set_cache, throw, bind.
      repeat case_match; simplify_eq; eauto.
    + destruct (ok response); simpl;
        unfold json_of, clear_cache, set_cache, throw, bind; try rewrite He;
        repeat case_match; simplify_eq; eauto.
    + destruct (ok response); simpl;
        unfold json_of, clear_cache, set_cache, throw, bind, ret; try rewrite Ht.
      * assert (negb (String.eqb (token_type tokenData) "bearer") ||
                negb (JS.truthy (access_token tokenData)) = true) as ->.
        { destruct Hbad as [Hbad| ->]; [|apply orb_true_r].
          apply String.eqb_neq in Hbad. by rewrite Hbad. }
        repeat case_match; simplify_eq; eauto.
      * repeat case_match; simplify_eq; eauto.
Qed.

(** C8. When the grant request is made and the endpoint answers 401, the
    call fails with the authentication error and both cache variables are
    cleared; the next call sends the grant request again. *)
Theorem grant_unauthorized_clears_cache (env : Env) (w : World)
    (response : Response RedditTokenResponse) :
  cached_token w (clock env (clock_reads w)) = None →
  credentials_configured env →
  grant_endpoint env (length (sent w)) (the_grant_request env) = Responded response →
  status response = 401 →
  ∃ w',
    getRedditAccessToken env w =
      (Thrown (JS.mkError (msg_grant_unauthorized 401)), w') ∧
    redditAccessToken w' = None ∧
    tokenExpiryTime w' = None ∧
    sent (getRedditAccessToken env w').2 =
      (sent w' ++ [the_grant_request env])%list.
Proof.
  intros Hmiss Hcred Hresp Hstatus.
  exists (with_cache None None (with_request (the_grant_request env) (tick w))).
  split; [|split; [reflexivity|split; [reflexivity|]]].
  - unfold getRedditAccessToken, bind, Date_now, get_world.
    change (cached_token (tick w) (clock env (clock_reads w)))
      with (cached_token w (clock env (clock_reads w))).
    rewrite Hmiss, (credentials_configured_guard _ Hcred).
    unfold try_catch, bind, fetch. simpl. rewrite Hresp.
    unfold ok. rewrite Hstatus. reflexivity.
  - destruct (getRedditAccessToken_refresh env
                (with_cache None None (with_request (the_grant_request env) (tick w))))
      as (out & w'' & -> & Hsent & _); [reflexivity|exact Hcred|exact Hsent].
Qed.

(** ** Failure statuses of the hot-listing endpoint *)

Lemma not_found_is_specific (name : string) :
  is_specific_error (JS.mkError (msg_not_found name)) = true.
Proof.
  unfold is_specific_error. apply existsb_exists. exists "(404)". split.
  - unfold rethrown_markers. simpl. tauto.
  - unfold error_includes, msg_not_found. simpl JS.message.
    do 2 apply includes_app_r. reflexivity.
Qed.

Lemma listing_unauthorized_is_specific :
  is_specific_error (JS.mkError msg_listing_unauthorized) = true.
Proof. vm_compute. reflexivity. Qed.

(** The message thrown for a 429 carries none of the markers that the
    final [catch] looks for: its text has [(429 Too Many Requests)], the
    marker is [(429)]. *)
Lemma rate_limited_is_not_specific :
  is_specific_error (JS.mkError msg_rate_limited) = false.
Proof. vm_compute. reflexivity. Qed.

Section ListingStatus.

Variable new_URL : string → option URL.
Variable env : Env.
Variables (subredditUrl name tok : string) (limit : Z) (w w1 : World).
Variable response : Response RedditApiResponse.

Hypothesis Hname : extractSubredditName new_URL subredditUrl = Some name.
Hypothesis Hnonempty : name ≠ "".
Hypothesis Htoken : getRedditAccessToken env w = (Returned tok, w1).
Hypothesis Hresponse :
  hot_endpoint env (length (sent w1)) (hot_request env name limit tok) =
    Responded response.

(** The run up to the status tests. *)
Local Ltac to_status_tests Hstatus :=
  unfold scrapeTrendyImages; rewrite Hname;
  apply truthy_nonempty in Hnonempty; rewrite Hnonempty; cbn [negb];
  unfold bind, try_catch; rewrite Htoken;
  unfold fetch, throw; rewrite Hresponse;
  unfold ok; rewrite Hstatus;
  cbn [negb Z.leb Z.eqb Z.compare Pos.compare Pos.compare_cont andb Pos.eqb
       clear_cache set_cache].

Lemma listing_401 :
  status response = 401 →
  scrapeTrendyImages new_URL env subredditUrl limit w =
    (Thrown (JS.mkError msg_listing_unauthorized),
     with_cache None None (with_request (hot_request env name limit tok) w1)).
Proof.
  intros Hstatus. to_status_tests Hstatus.
  by rewrite listing_unauthorized_is_specific.
Qed.

Lemma listing_404 :
  status response = 404 →
  scrapeTrendyImages new_URL env subredditUrl limit w =
    (Thrown (JS.mkError (msg_not_found name)),
     with_request (hot_request env name limit tok) w1).
Proof.
  intros Hstatus. to_status_tests Hstatus.
  by rewrite not_found_is_specific.
Qed.

(** A 429 ends in the generic error, whatever the inputs. *)
Lemma listing_429 :
  status response = 429 →
  scrapeTrendyImages new_URL env subredditUrl limit w =
    (Thrown (JS.mkError (msg_unexpected name)),
     with_request (hot_request env name limit tok) w1).
Proof.
  intros Hstatus. to_status_tests Hstatus.
  by rewrite rate_limited_is_not_specific.
Qed.

(** A 403 ends in the generic error too, unless the community name
    itself happens to contain one of the markers. *)
Lemma listing_403 :
  status response = 403 →
  is_specific_error (JS.mkError (msg_access_denied name)) = false →
  scrapeTrendyImages new_URL env subredditUrl limit w =
    (Thrown (JS.mkError (msg_unexpected name)),
     with_request (hot_request env name limit tok) w1).
Proof.
  intros Hstatus Hmarkers. to_status_tests Hstatus.
  by rewrite Hmarkers.
Qed.

End ListingStatus.

(** C7, at the failing inputs. Fetching r/pics when the hot-listing
    endpoint answers 429, or 403, ends in the same generic error as when
    it answers 500: the rate-limit and access-denied errors thrown inside
    the [try] block do not pass the marker test of the final [catch]. *)
Theorem listing_429_and_403_end_in_generic_error :
  Sample.outcome_on_status 429 = Thrown (JS.mkError (msg_unexpected "pics")) ∧
  Sample.outcome_on_status 403 = Thrown (JS.mkError (msg_unexpected "pics")) ∧
  Sample.outcome_on_status 500 = Thrown (JS.mkError (msg_unexpected "pics")) ∧
  Sample.outcome_on_status 404 = Thrown (JS.mkError (msg_not_found "pics")) ∧
  Sample.outcome_on_status 401 = Thrown (JS.mkError msg_listing_unauthorized).
Proof. vm_compute. repeat split; reflexivity. Qed.

(** ** The statements at concrete inputs *)

Lemma scrapeTrendyImages_unique_mediaUrl_witness :
  ∃ posts w',
    scrapeTrendyImages Sample.simple_URL Sample.env_ok Sample.pics_url 25
      Sample.fresh_world = (Returned posts, w') ∧
    length posts = 2%nat ∧
    NoDup (mediaUrl <$> posts).
Proof.
  eexists _, _. split; [vm_compute; reflexivity|]. split; [reflexivity|].
  eapply (scrapeTrendyImages_unique_mediaUrl Sample.simple_URL Sample.env_ok
            Sample.pics_url 25 Sample.fresh_world).
  vm_compute. reflexivity.
Defined.

Lemma scrapeTrendyImages_only_images_witness :
  ∃ posts w',
    scrapeTrendyImages Sample.simple_URL Sample.env_ok Sample.pics_url 100
      Sample.fresh_world = (Returned posts, w') ∧
    length posts = 2%nat ∧
    Forall (λ p, mediaType p = image) posts.
Proof.
  eexists _, _. split; [vm_compute; reflexivity|]. split; [reflexivity|].
  eapply (scrapeTrendyImages_only_images Sample.simple_URL Sample.env_ok
            Sample.pics_url 100 Sample.fresh_world).
  vm_compute. reflexivity.
Defined.

(** C3, unamended, fails at an entry with the image hint, the video flag
    and an empty target URL: both conditions hold, under either reading of
    the gallery clause, and the entry is not classified. *)
Lemma classifyMedia_image_hint_empty_url :
  direct_image_condition (Sample.image_and_video "") ∧
  direct_image_condition_strict (Sample.image_and_video "") ∧
  hosted_video_condition (Sample.image_and_video "") ∧
  classifyMedia (Sample.image_and_video "") = None ∧
  classifyMedia (Sample.image_and_video "") ≠
    Some {| found_mediaUrl := url (Sample.image_and_video "");
            found_mediaType := image |}.
Proof.
  split; [left; reflexivity|].
  split; [split; [left; reflexivity | reflexivity]|].
  split; [split; [reflexivity | eexists; split; [reflexivity | discriminate]]|].
  split; [reflexivity | discriminate].
Qed.

(** The same with a target URL that contains the gallery substring: the
    image hint holds, rule 1 takes the entry and yields nothing, and rule 2
    is not tried. *)
Example classifyMedia_image_hint_gallery_url :
  direct_image_condition (Sample.image_and_video "https://i.imgur.com/gallery/a.jpg") ∧
  hosted_video_condition (Sample.image_and_video "https://i.imgur.com/gallery/a.jpg") ∧
  classifyMedia (Sample.image_and_video "https://i.imgur.com/gallery/a.jpg") = None.
Proof.
  split; [left; reflexivity|].
  split; [split; [reflexivity | eexists; split; [reflexivity | discriminate]]|].
  reflexivity.
Qed.

Lemma classifyMedia_rule1_first_witness :
  classifyMedia (Sample.image_and_video "https://i.redd.it/abc.jpg") =
    Some {| found_mediaUrl := "https://i.redd.it/abc.jpg"; found_mediaType := image |} ∧
  classifyMedia (Sample.image_and_video "https://i.imgur.com/gallery/a.jpg") = None ∧
  classifyMedia (Sample.image_and_video "") = None.
Proof.
  split; [|split].
  - apply (classifyMedia_rule1_first (Sample.image_and_video "https://i.redd.it/abc.jpg"));
      [left; reflexivity | discriminate | reflexivity
      | split; [reflexivity | eexists; split; [reflexivity | discriminate]]].
  - apply (classifyMedia_rule1_first
             (Sample.image_and_video "https://i.imgur.com/gallery/a.jpg"));
      [left; reflexivity | right; reflexivity].
  - apply (classifyMedia_rule1_first (Sample.image_and_video ""));
      [left; reflexivity | left; reflexivity].
Defined.

Lemma sanitizeAndFilterImages_policy_witness :
  sanitizeAndFilterImages Sample.simple_URL Sample.mixed_posts (getAllowedHostnames []) =
  filter (passes_policy Sample.simple_URL (getAllowedHostnames [])) Sample.mixed_posts.
Proof.
  apply (sanitizeAndFilterImages_policy Sample.simple_URL Sample.mixed_posts
           (getAllowedHostnames [])).
  reflexivity.
Defined.

(** The sanitiser on the sample posts: the two allowed images, in order. *)
Example sanitizeAndFilterImages_sample :
  title <$> sanitizeAndFilterImages Sample.simple_URL Sample.mixed_posts
              (getAllowedHostnames []) = ["kept"; "kept too"].
Proof. vm_compute. reflexivity. Qed.

Lemma grant_unauthorized_clears_cache_witness :
  ∃ w',
    getRedditAccessToken (Sample.env_with (Some "my-id") (Some "wrong") 401 200)
      (Sample.cached_world 1000) =
      (Thrown (JS.mkError (msg_grant_unauthorized 401)), w') ∧
    redditAccessToken w' = None ∧
    tokenExpiryTime w' = None ∧
    sent (getRedditAccessToken
            (Sample.env_with (Some "my-id") (Some "wrong") 401 200) w').2 =
      (sent w' ++ [the_grant_request
                     (Sample.env_with (Some "my-id") (Some "wrong") 401 200)])%list.
Proof.
  eapply (grant_unauthorized_clears_cache
            (Sample.env_with (Some "my-id") (Some "wrong") 401 200)
            (Sample.cached_world 1000)).
  - reflexivity.
  - split; reflexivity.
  - reflexivity.
  - reflexivity.
Defined.

Lemma out_of_scope_entries_skipped_witness :
  (∀ classify acc,
     forEach_callback_with classify acc (Sample.t3 Sample.pinned_post) = skip acc) ∧
  (∀ before after,
     mediaPosts (forEach_children (before ++ Sample.t3 Sample.pinned_post :: after)) =
       mediaPosts (forEach_children (before ++ after)) ∧
     skippedCount (forEach_children (before ++ Sample.t3 Sample.pinned_post :: after)) =
       skippedCount (forEach_children (before ++ after)) + 1).
Proof.
  apply (out_of_scope_entries_skipped (Sample.t3 Sample.pinned_post)).
  right. eexists. split; [reflexivity | left; reflexivity].
Defined.

(** * Further properties of the pipeline *)

(** ** The classifier *)

(** The classifier yields an image exactly through rule 1 and its inner
    guard, and then with the target URL. *)
Lemma classifyMedia_image (postData : RedditPostData) (foundMedia : FoundMedia) :
  classifyMedia postData = Some foundMedia →
  found_mediaType foundMedia = image →
  found_mediaUrl foundMedia = url postData ∧
  rule1_test postData = true ∧
  url postData ≠ "" ∧
  JS.includes (url postData) "gallery" = false.
Proof.
  unfold classifyMedia. intros Hc Himg.
  destruct (rule1_test postData).
  - destruct (JS.truthy (url postData)) eqn:Hu; simpl in Hc; [|discriminate].
    destruct (JS.includes (url postData) "gallery") eqn:Hg; simpl in Hc; [discriminate|].
    injection Hc as <-. apply truthy_nonempty in Hu. done.
  - repeat case_match; simplify_eq; simpl in Himg; discriminate.
Qed.

(** X5. The classifier answers (image, u) exactly when the rule-1 test
    holds, the target URL is non-empty and free of the gallery substring,
    and u is the target URL. An entry that passes the rule-1 test gets
    that answer or none; so every video or redgifs answer comes from an
    entry that fails the rule-1 test. *)
Theorem classifyMedia_image_iff (postData : RedditPostData) :
  (∀ u,
     classifyMedia postData =
       Some {| found_mediaUrl := u; found_mediaType := image |} ↔
     u = url postData ∧ rule1_test postData = true ∧ url postData ≠ "" ∧
     JS.includes (url postData) "gallery" = false) ∧
  (rule1_test postData = true →
   classifyMedia postData = None ∨
   classifyMedia postData =
     Some {| found_mediaUrl := url postData; found_mediaType := image |}) ∧
  (∀ foundMedia,
     classifyMedia postData = Some foundMedia →
     found_mediaType foundMedia ≠ image →
     rule1_test postData = false).
Proof.
  assert (rule1_test postData = true →
          classifyMedia postData = None ∨
          classifyMedia postData =
            Some {| found_mediaUrl := url postData; found_mediaType := image |})
    as Hrule1.
  { intros Hr. unfold classifyMedia. rewrite Hr.
    destruct (JS.truthy (url postData) && negb (JS.includes (url postData) "gallery"));
      [by right | by left]. }
  split; [|split; [exact Hrule1|]].
  - intros u. split.
    + intros Hc. destruct (classifyMedia_image _ _ Hc eq_refl) as (Hu & H).
      simpl in Hu. done.
    + intros (-> & Hr & Hu & Hg). unfold classifyMedia.
      apply truthy_nonempty in Hu. by rewrite Hr, Hu, Hg.
  - intros foundMedia Hc Htype.
    destruct (rule1_test postData); [|reflexivity].
    destruct (Hrule1 eq_refl) as [Hnone|Himage]; rewrite Hc in *;
      [discriminate | by injection Himage as ->].
Qed.

Lemma truthy_the_string (o : option string) :
  JS.truthy_string o = true → the_string o ≠ "".
Proof. destruct o as [s|]; simpl; [apply truthy_nonempty | discriminate]. Qed.

(** X6. An image or video answer of the classifier never carries an empty
    URL; only a redgifs answer can (it falls back to the target URL as it
    is). *)
Theorem classifyMedia_url_nonempty (postData : RedditPostData) (foundMedia : FoundMedia) :
  classifyMedia postData = Some foundMedia →
  found_mediaType foundMedia ≠ redgifs →
  found_mediaUrl foundMedia ≠ "".
Proof.
  unfold classifyMedia, rule2_test. intros Hc Htype.
  destruct (rule1_test postData).
  - destruct (JS.truthy (url postData)) eqn:Hu; simpl in Hc; [|discriminate].
    destruct (JS.includes (url postData) "gallery"); simpl in Hc; [discriminate|].
    injection Hc as <-. simpl. by apply truthy_nonempty.
  - destruct (is_video postData); simpl in Hc.
    + destruct (JS.truthy_string (media_fallback_url postData)) eqn:Hf.
      * injection Hc as <-. simpl. by apply truthy_the_string.
      * destruct (rule3_test postData); [injection Hc as <-; simpl in Htype; done|].
        destruct (rule4_test postData); [|discriminate].
        repeat case_match; simplify_eq; simpl;
          apply truthy_the_string;
          repeat match goal with
                 | H : _ && _ = true |- _ => apply andb_true_iff in H as [? ?]
                 end; done.
    + destruct (rule3_test postData); [injection Hc as <-; simpl in Htype; done|].
      destruct (rule4_test postData); [|discriminate].
      repeat case_match; simplify_eq; simpl;
        apply truthy_the_string;
        repeat match goal with
               | H : _ && _ = true |- _ => apply andb_true_iff in H as [? ?]
               end; done.
Qed.

Lemma classifyMedia_image_iff_witness :
  rule1_test Sample.video_post = false.
Proof.
  destruct (classifyMedia_image_iff Sample.video_post) as (_ & _ & Hother).
  apply (Hother {| found_mediaUrl := "https://v.redd.it/xyz/DASH_720.mp4";
                   found_mediaType := video |});
    [reflexivity | discriminate].
Defined.

Lemma classifyMedia_url_nonempty_witness :
  found_mediaUrl {| found_mediaUrl := "https://v.redd.it/xyz/DASH_720.mp4";
                    found_mediaType := video |} ≠ "".
Proof.
  apply (classifyMedia_url_nonempty Sample.video_post); [reflexivity | discriminate].
Defined.

(** ** The callback *)

Lemma already_listed_true (posts : list MediaPost) (u : string) :
  already_listed posts u = true → u ∈ (mediaUrl <$> posts).
Proof.
  induction posts as [|p posts IH]; simpl; [discriminate|].
  intros H. apply orb_true_iff in H as [Hp|Hrest].
  - apply String.eqb_eq in Hp. subst. apply list_elem_of_here.
  - apply list_elem_of_further. auto.
Qed.

(** What an entry contributes when nothing has been listed: nothing, or
    the one post built from its data. *)
Lemma listed_alone_cases (child : RedditListingChild) :
  listed_alone child = [] ∨
  ∃ postData,
    child_kind child = "t3" ∧ child_data child = Some postData ∧
    JS.truthy_flag (stickied postData) = false ∧
    JS.truthy_flag (is_gallery postData) = false ∧
    rule1_test postData = true ∧
    url postData ≠ "" ∧
    JS.includes (url postData) "gallery" = false ∧
    listed_alone child =
      [ {| mediaUrl := url postData; mediaType := image;
           title := if JS.truthy (post_title postData)
                    then post_title postData else "Untitled Post";
           redditUrl := "https://www.reddit.com" +:+ permalink postData |} ].
Proof.
  unfold listed_alone, forEach_callback, forEach_callback_with.
  destruct (String.eqb (child_kind child) "t3") eqn:Hkind; simpl; [|by left].
  apply String.eqb_eq in Hkind.
  destruct (child_data child) as [postData|]; [|by left].
  destruct (JS.truthy_flag (stickied postData)) eqn:Hs; [by left|].
  destruct (JS.truthy_flag (is_gallery postData)) eqn:Hg; [by left|].
  destruct (classifyMedia postData) as [foundMedia|] eqn:Hc; [|by left].
  destruct (JS.truthy (found_mediaUrl foundMedia)); simpl; [|by left].
  destruct (bool_decide (found_mediaType foundMedia = image)) eqn:Ht; [|by left].
  apply bool_decide_eq_true in Ht.
  destruct (classifyMedia_image _ _ Hc Ht) as (Hu & Hr & Hne & Hgal).
  right. exists postData. rewrite Hu, Ht. done.
Qed.

(** One run of the callback appends what the entry contributes alone,
    unless its URL is already listed. *)
Lemma forEach_callback_appends (acc : Accumulated) (child : RedditListingChild) :
  mediaPosts (forEach_callback acc child) =
  (mediaPosts acc ++
   filter (λ q, mediaUrl q ∉ (mediaUrl <$> mediaPosts acc)) (listed_alone child))%list.
Proof.
  unfold listed_alone, forEach_callback, forEach_callback_with.
  destruct (String.eqb (child_kind child) "t3"); simpl; [|by rewrite app_nil_r].
  destruct (child_data child) as [postData|]; [|by rewrite app_nil_r].
  destruct (JS.truthy_flag (stickied postData)); [by rewrite app_nil_r|].
  destruct (JS.truthy_flag (is_gallery postData)); [by rewrite app_nil_r|].
  destruct (classifyMedia postData) as [foundMedia|]; [|by rewrite app_nil_r].
  destruct (JS.truthy (found_mediaUrl foundMedia)); simpl; [|by rewrite app_nil_r].
  destruct (bool_decide (found_mediaType foundMedia = image)); [|by rewrite app_nil_r].
  destruct (already_listed (mediaPosts acc) (found_mediaUrl foundMedia)) eqn:Hl; simpl.
  - apply already_listed_true in Hl.
    rewrite filter_cons_False by (simpl; auto). by rewrite filter_nil, app_nil_r.
  - apply already_listed_false in Hl.
    rewrite filter_cons_True by (simpl; auto). by rewrite filter_nil.
Qed.

Lemma forEach_callback_counts (acc : Accumulated) (child : RedditListingChild) :
  Z.of_nat (length (mediaPosts (forEach_callback acc child))) +
    skippedCount (forEach_callback acc child) =
  Z.of_nat (length (mediaPosts acc)) + skippedCount acc + 1.
Proof.
  destruct (forEach_callback_with_cases classifyMedia acc child)
    as [E|(pd & fm & p & _ & _ & _ & _ & _ & _ & _ & _ & E)];
    unfold forEach_callback; rewrite E; simpl.
  - lia.
  - rewrite length_app. simpl. lia.
Qed.

(** X1. Every entry of the listing is accounted for: the number of listed
    posts plus the skip counter is the number of entries. *)
Theorem forEach_children_accounts (items : list RedditListingChild) :
  Z.of_nat (length (mediaPosts (forEach_children items))) +
    skippedCount (forEach_children items) =
  Z.of_nat (length items).
Proof.
  unfold forEach_children.
  enough (∀ acc,
    Z.of_nat (length (mediaPosts (fold_left forEach_callback items acc))) +
      skippedCount (fold_left forEach_callback items acc) =
    Z.of_nat (length (mediaPosts acc)) + skippedCount acc + Z.of_nat (length items))
    as H by (rewrite H; simpl; lia).
  induction items as [|child items IH]; intros acc; simpl fold_left.
  - simpl. lia.
  - rewrite IH, forEach_callback_counts. simpl length. lia.
Qed.

(** The list only grows, and by posts that entries contribute alone. *)
Lemma fold_forEach_callback_grows (items : list RedditListingChild) (acc : Accumulated) :
  ∃ more,
    mediaPosts (fold_left forEach_callback items acc) = (mediaPosts acc ++ more)%list ∧
    more `sublist_of` (items ≫= listed_alone).
Proof.
  revert acc. induction items as [|child items IH]; intros acc; simpl fold_left.
  - exists []. split; [by rewrite app_nil_r | constructor].
  - destruct (IH (forEach_callback acc child)) as (more & -> & Hsub).
    rewrite forEach_callback_appends, <- app_assoc. eexists. split; [reflexivity|].
    rewrite bind_cons. apply sublist_app; [apply sublist_filter | exact Hsub].
Qed.

(** X4. The listed posts are, in listing order, posts that the entries
    contribute on their own: the callback reorders nothing and invents
    nothing. *)
Theorem forEach_children_in_listing_order (items : list RedditListingChild) :
  mediaPosts (forEach_children items) `sublist_of` (items ≫= listed_alone).
Proof.
  unfold forEach_children.
  destruct (fold_forEach_callback_grows items {| mediaPosts := []; skippedCount := 0 |})
    as (more & -> & Hsub).
  exact Hsub.
Qed.

(** X2. Every listed post comes from an entry of kind [t3] that is neither
    pinned nor a gallery and passes rule 1: its URL is the entry's
    non-empty, gallery-free target URL, its type is image, its title is
    the entry's title or the stand-in for an empty one, and its Reddit URL
    is the site prefix followed by the permalink. *)
Theorem listed_post_provenance (items : list RedditListingChild) (p : MediaPost) :
  p ∈ mediaPosts (forEach_children items) →
  ∃ child postData,
    child ∈ items ∧
    child_kind child = "t3" ∧ child_data child = Some postData ∧
    JS.truthy_flag (stickied postData) = false ∧
    JS.truthy_flag (is_gallery postData) = false ∧
    rule1_test postData = true ∧
    url postData ≠ "" ∧
    JS.includes (url postData) "gallery" = false ∧
    p = {| mediaUrl := url postData; mediaType := image;
           title := if JS.truthy (post_title postData)
                    then post_title postData else "Untitled Post";
           redditUrl := "https://www.reddit.com" +:+ permalink postData |}.
Proof.
  intros Hp.
  destruct (fold_forEach_callback_grows items {| mediaPosts := []; skippedCount := 0 |})
    as (more & Hmore & Hsub).
  unfold forEach_children in Hp. rewrite Hmore in Hp. simpl in Hp.
  eapply elem_of_sublist in Hp; [|exact Hsub].
  apply list_elem_of_bind in Hp as (child & Hp & Hchild).
  destruct (listed_alone_cases child)
    as [E|(pd & Hk & Hd & Hs & Hg & Hr & Hu & Hgal & E)]; rewrite E in Hp.
  - by apply not_elem_of_nil in Hp.
  - apply list_elem_of_singleton in Hp. subst p. exists child, pd. done.
Qed.

Lemma listed_post_provenance_witness :
  ∃ child postData,
    child ∈ Sample.hot_children ∧
    child_kind child = "t3" ∧ child_data child = Some postData ∧
    JS.truthy_flag (stickied postData) = false ∧
    JS.truthy_flag (is_gallery postData) = false ∧
    rule1_test postData = true ∧
    url postData ≠ "" ∧
    JS.includes (url postData) "gallery" = false ∧
    {| mediaUrl := "https://i.redd.it/abc.jpg"; mediaType := image;
       title := "A post";
       redditUrl := "https://www.reddit.com/r/pics/comments/abc/a_post/" |} =
    {| mediaUrl := url postData; mediaType := image;
       title := if JS.truthy (post_title postData)
                then post_title postData else "Untitled Post";
       redditUrl := "https://www.reddit.com" +:+ permalink postData |}.
Proof.
  apply (listed_post_provenance Sample.hot_children).
  vm_compute. apply list_elem_of_here.
Defined.

Lemma forEach_callback_keeps (acc : Accumulated) (child : RedditListingChild) (u : string) :
  u ∈ (mediaUrl <$> mediaPosts acc) →
  u ∈ (mediaUrl <$> mediaPosts (forEach_callback acc child)).
Proof.
  intros Hu. rewrite forEach_callback_appends, fmap_app.
  apply elem_of_app. by left.
Qed.

Lemma forEach_callback_covers (acc : Accumulated) (child : RedditListingChild)
    (q : MediaPost) :
  q ∈ listed_alone child →
  mediaUrl q ∈ (mediaUrl <$> mediaPosts (forEach_callback acc child)).
Proof.
  intros Hq. rewrite forEach_callback_appends, fmap_app. apply elem_of_app.
  destruct (decide (mediaUrl q ∈ (mediaUrl <$> mediaPosts acc))) as [Hin|Hout].
  - by left.
  - right. apply list_elem_of_fmap. exists q. split; [reflexivity|].
    apply list_elem_of_filter. done.
Qed.

Lemma fold_forEach_callback_keeps (items : list RedditListingChild)
    (acc : Accumulated) (u : string) :
  u ∈ (mediaUrl <$> mediaPosts acc) →
  u ∈ (mediaUrl <$> mediaPosts (fold_left forEach_callback items acc)).
Proof.
  revert acc. induction items as [|child items IH]; intros acc Hu; simpl; [exact Hu|].
  by apply IH, forEach_callback_keeps.
Qed.

(** X3. Nothing eligible is lost: the URL of every post that an entry of
    the listing contributes on its own is the URL of a listed post. *)
Theorem forEach_children_covers (items : list RedditListingChild)
    (child : RedditListingChild) (q : MediaPost) :
  child ∈ items →
  q ∈ listed_alone child →
  mediaUrl q ∈ (mediaUrl <$> mediaPosts (forEach_children items)).
Proof.
  unfold forEach_children. generalize {| mediaPosts := []; skippedCount := 0 |}.
  induction items as [|c items IH]; intros acc Hchild Hq.
  - by apply not_elem_of_nil in Hchild.
  - simpl. apply elem_of_cons in Hchild as [->|Hchild].
    + by apply fold_forEach_callback_keeps, forEach_callback_covers.
    + by apply IH.
Qed.

Lemma forEach_children_covers_witness :
  "https://example.org/pic.PNG" ∈
    (mediaUrl <$> mediaPosts (forEach_children Sample.hot_children)).
Proof.
  apply (forEach_children_covers Sample.hot_children
           (Sample.t3 (Sample.post "https://example.org/pic.PNG" None))
           {| mediaUrl := "https://example.org/pic.PNG"; mediaType := image;
              title := "A post";
              redditUrl := "https://www.reddit.com/r/pics/comments/abc/a_post/" |}).
  - unfold Sample.hot_children. do 4 apply list_elem_of_further. apply list_elem_of_here.
  - vm_compute. apply list_elem_of_here.
Defined.

(** X7. Among entries with one URL the first wins: the post contributed
    by an entry is listed, as it is, when no earlier entry contributes a
    post with the same URL. *)
Theorem first_entry_for_url_is_listed (before after : list RedditListingChild)
    (child : RedditListingChild) (p : MediaPost) :
  p ∈ listed_alone child →
  (∀ c q, c ∈ before → q ∈ listed_alone c → mediaUrl q ≠ mediaUrl p) →
  p ∈ mediaPosts (forEach_children (before ++ child :: after)).
Proof.
  intros Hp Hfirst. unfold forEach_children. rewrite fold_left_app. simpl.
  destruct (fold_forEach_callback_grows before {| mediaPosts := []; skippedCount := 0 |})
    as (more & Hmore & Hsub). simpl in Hmore.
  destruct (fold_forEach_callback_grows after
              (forEach_callback
                 (fold_left forEach_callback before
                    {| mediaPosts := []; skippedCount := 0 |}) child))
    as (rest & -> & _).
  apply elem_of_app. left.
  rewrite forEach_callback_appends. apply elem_of_app. right.
  apply list_elem_of_filter. split; [|exact Hp].
  rewrite Hmore. intros Hin. apply list_elem_of_fmap in Hin as (q & Hq & Hin).
  eapply elem_of_sublist in Hin; [|exact Hsub].
  apply list_elem_of_bind in Hin as (c & Hin & Hc).
  by apply (Hfirst c q).
Qed.

Lemma first_entry_for_url_is_listed_witness :
  {| mediaUrl := "https://i.redd.it/abc.jpg"; mediaType := image;
     title := "A post";
     redditUrl := "https://www.reddit.com/r/pics/comments/abc/a_post/" |} ∈
  mediaPosts (forEach_children
    ([Sample.t3 Sample.pinned_post] ++
     Sample.t3 (Sample.post "https://i.redd.it/abc.jpg" (Some hint_image)) ::
     [Sample.t3 Sample.video_post;
      Sample.t3 (Sample.post "https://i.redd.it/abc.jpg" None)])).
Proof.
  apply first_entry_for_url_is_listed.
  - vm_compute. apply list_elem_of_here.
  - intros c q Hc Hq. apply list_elem_of_singleton in Hc. subst c.
    vm_compute in Hq. by apply not_elem_of_nil in Hq.
Defined.

(** ** The community name *)

Lemma all_chars_rev_app (p : ascii → bool) (a b : string) :
  JSString.all_chars p (String.rev_app a b) =
  JSString.all_chars p a && JSString.all_chars p b.
Proof.
  revert b. induction a as [|c a IH]; intros b; simpl; [reflexivity|].
  rewrite IH. simpl. rewrite !andb_assoc. f_equal. apply andb_comm.
Qed.

Lemma all_chars_rev (p : ascii → bool) (s : string) :
  JSString.all_chars p (String.rev s) = JSString.all_chars p s.
Proof. unfold String.rev. rewrite all_chars_rev_app. simpl. apply andb_true_r. Qed.

(** The pieces of a split hold no separator. *)
Lemma split_go_pieces (sep : ascii) (s cur p : string) :
  JSString.all_chars (λ c, negb (Ascii.eqb c sep)) cur = true →
  p ∈ JS.split_go sep s cur →
  JSString.all_chars (λ c, negb (Ascii.eqb c sep)) p = true.
Proof.
  revert cur. induction s as [|c s IH]; intros cur Hcur Hp; simpl in Hp.
  - apply list_elem_of_singleton in Hp. subst p. by rewrite all_chars_rev.
  - destruct (Ascii.eqb c sep) eqn:Hc.
    + apply elem_of_cons in Hp as [->|Hp].
      * by rewrite all_chars_rev.
      * by apply (IH EmptyString).
    + apply (IH (String c cur)); [|exact Hp]. simpl. by rewrite Hc, Hcur.
Qed.

Lemma all_chars_not_included (c : ascii) (s : string) :
  JSString.all_chars (λ a, negb (Ascii.eqb a c)) s = true →
  JS.includes s (String c EmptyString) = false.
Proof.
  induction s as [|a s IH]; simpl; [reflexivity|].
  intros H. apply andb_true_iff in H as [Ha Hs].
  rewrite (IH Hs), orb_false_r.
  rewrite Ascii.eqb_sym. apply negb_true_iff in Ha. by rewrite Ha.
Qed.

(** An extracted name is a non-empty piece of the path split at slashes. *)
Lemma extractSubredditName_piece (new_URL : string → option URL) (u name : string) :
  extractSubredditName new_URL u = Some name →
  name ≠ "" ∧
  ∃ parsedUrl, new_URL u = Some parsedUrl ∧
               name ∈ JS.split (pathname parsedUrl) "/".
Proof.
  unfold extractSubredditName.
  destruct (new_URL u) as [parsedUrl|]; [|discriminate].
  destruct (List.filter JS.truthy (JS.split (pathname parsedUrl) "/"))
    as [|p0 [|p1 rest]] eqn:Hparts; try discriminate.
  destruct (String.eqb (JS.toLowerCase p0) "r"); [|discriminate].
  intros [= <-].
  assert (In p1 (List.filter JS.truthy (JS.split (pathname parsedUrl) "/"))) as Hin
    by (rewrite Hparts; simpl; auto).
  apply List.filter_In in Hin as [Hin Htruthy].
  split; [by apply truthy_nonempty|].
  exists parsedUrl. split; [reflexivity|]. by apply list_elem_of_In.
Qed.

(** X8. A community name extracted from a URL is never empty and holds
    no slash, so the guard against a missing name only ever fires on
    [null]. *)
Theorem extractSubredditName_well_formed (new_URL : string → option URL)
    (u name : string) :
  extractSubredditName new_URL u = Some name →
  name ≠ "" ∧ JS.includes name "/" = false.
Proof.
  intros Hname.
  destruct (extractSubredditName_piece _ _ _ Hname) as (Hne & parsedUrl & _ & Hin).
  split; [exact Hne|].
  apply all_chars_not_included.
  by apply (split_go_pieces "/" (pathname parsedUrl) EmptyString).
Qed.

Lemma extractSubredditName_well_formed_witness :
  "pics" ≠ "" ∧ JS.includes "pics" "/" = false.
Proof.
  apply (extractSubredditName_well_formed Sample.simple_URL Sample.pics_url).
  reflexivity.
Defined.

(** ** Outcomes of the client-credentials grant *)

Lemma invalid_token_markers :
  error_includes (JS.mkError msg_invalid_token) "Failed to authenticate" = false ∧
  error_includes (JS.mkError msg_invalid_token) "Reddit API credentials are missing" = false.
Proof. split; vm_compute; reflexivity. Qed.

Lemma grant_failed_marker (st : Z) :
  error_includes (JS.mkError (msg_grant_failed st)) "Failed to authenticate" = true.
Proof. reflexivity. Qed.

Section GrantOutcomes.

Variable env : Env.
Variable w : World.

Hypothesis Hmiss : cached_token w (clock env (clock_reads w)) = None.
Hypothesis Hcred : credentials_configured env.

(** The run up to the settling of the grant request. *)
Local Ltac to_grant :=
  unfold getRedditAccessToken, bind, Date_now, get_world;
  change (cached_token (tick w) (clock env (clock_reads w)))
    with (cached_token w (clock env (clock_reads w)));
  rewrite Hmiss, (credentials_configured_guard _ Hcred);
  unfold try_catch, bind, fetch;
  change (sent (tick w)) with (sent w).

Variable response : Response RedditTokenResponse.

Hypothesis Hresponse :
  grant_endpoint env (length (sent w)) (the_grant_request env) = Responded response.

Lemma grant_success_run (tokenData : RedditTokenResponse) :
  ok response = true →
  json response = inr tokenData →
  token_type tokenData = "bearer" →
  access_token tokenData ≠ "" →
  getRedditAccessToken env w =
    (Returned (access_token tokenData),
     with_cache (Some (access_token tokenData))
       (Some (clock env (S (clock_reads w)) + (expires_in tokenData - 300) * 1000))
       (tick (with_request (the_grant_request env) (tick w)))).
Proof.
  intros Hok Hjson Hbearer Htoken. to_grant. rewrite Hresponse, Hok.
  unfold json_of. rewrite Hjson. unfold ret at 1.
  rewrite Hbearer. apply truthy_nonempty in Htoken. rewrite Htoken.
  reflexivity.
Qed.

(** X9. A successful grant returns the issued token and caches it with
    the expiry [now + (expires_in - 300) * 1000]; the next call, made
    while the clock reads a time from the epoch on and before that expiry,
    returns the same token without any request. The lifetime in the
    response is a whole number here, and the statement is for lifetimes
    and clock readings that keep every step of the computation of the
    expiry among the safe integers, where the arithmetic of JavaScript
    numbers is the arithmetic of integers. *)
Theorem grant_success_then_cached (tokenData : RedditTokenResponse) :
  ok response = true →
  json response = inr tokenData →
  token_type tokenData = "bearer" →
  access_token tokenData ≠ "" →
  safe_integer (expires_in tokenData) →
  safe_integer (expires_in tokenData - 300) →
  safe_integer ((expires_in tokenData - 300) * 1000) →
  safe_integer (clock env (S (clock_reads w))) →
  safe_integer (clock env (S (clock_reads w)) + (expires_in tokenData - 300) * 1000) →
  ∃ w',
    getRedditAccessToken env w = (Returned (access_token tokenData), w') ∧
    sent w' = (sent w ++ [the_grant_request env])%list ∧
    redditAccessToken w' = Some (access_token tokenData) ∧
    tokenExpiryTime w' =
      Some (clock env (S (clock_reads w)) + (expires_in tokenData - 300) * 1000) ∧
    (0 <= clock env (clock_reads w') <
       clock env (S (clock_reads w)) + (expires_in tokenData - 300) * 1000 →
     ∃ w'', getRedditAccessToken env w' = (Returned (access_token tokenData), w'') ∧
            sent w'' = sent w').
Proof.
  intros Hok Hjson Hbearer Htoken _ _ _ _ _.
  eexists. split; [by apply grant_success_run|].
  split; [reflexivity|]. split; [reflexivity|]. split; [reflexivity|].
  intros Hwindow. eexists. split.
  - apply getRedditAccessToken_hit, cached_token_Some.
    split; [reflexivity|]. split; [exact Htoken|].
    eexists. split; [reflexivity|].
    change (0 <= clock env (S (S (clock_reads w))) <
            clock env (S (clock_reads w)) + (expires_in tokenData - 300) * 1000)
      in Hwindow.
    destruct Hwindow as [Hepoch Hbefore].
    split; [|exact Hbefore]. intros Hzero. rewrite Hzero in Hbefore. lia.
  - reflexivity.
Qed.

(** X10. A token issued for 300 seconds or less is cached with an expiry
    that is not after the moment of caching: when the clock does not run
    backwards it is never served from the cache, and the next call sends
    the grant request again. *)
Theorem short_lived_token_not_reused (tokenData : RedditTokenResponse) :
  ok response = true →
  json response = inr tokenData →
  token_type tokenData = "bearer" →
  access_token tokenData ≠ "" →
  expires_in tokenData <= 300 →
  clock env (S (clock_reads w)) <= clock env (S (S (clock_reads w))) →
  ∃ w',
    getRedditAccessToken env w = (Returned (access_token tokenData), w') ∧
    sent (getRedditAccessToken env w').2 = (sent w' ++ [the_grant_request env])%list.
Proof.
  intros Hok Hjson Hbearer Htoken Hshort Hclock.
  eexists. split; [by apply grant_success_run|].
  match goal with
  | |- sent (getRedditAccessToken env ?w').2 = _ =>
      destruct (getRedditAccessToken_refresh env w') as (out & w'' & -> & Hsent & _);
        [|exact Hcred|exact Hsent]
  end.
  match goal with
  | |- cached_token ?w' ?now = None =>
      destruct (cached_token w' now) as [t|] eqn:Hc; [|reflexivity]
  end.
  apply cached_token_Some in Hc as (_ & _ & e & He & _ & Hlt).
  simpl in He, Hlt. injection He as <-. lia.
Qed.

(** X11. A 2xx answer that is not a usable bearer token (another token
    type, or an empty token) is reported as a connection failure: the
    more specific invalid-token error is replaced in the [catch] block.
    The cache is cleared. *)
Theorem unusable_token_reported_as_connection_failure (tokenData : RedditTokenResponse) :
  ok response = true →
  json response = inr tokenData →
  token_type tokenData ≠ "bearer" ∨ access_token tokenData = "" →
  getRedditAccessToken env w =
    (Thrown (JS.mkError msg_could_not_connect), with_cache None None (with_request (the_grant_request env) (tick w))).
Proof.
  intros Hok Hjson Hbad. to_grant. rewrite Hresponse, Hok.
  unfold json_of. rewrite Hjson. unfold ret at 1.
  assert (negb (String.eqb (token_type tokenData) "bearer") ||
          negb (JS.truthy (access_token tokenData)) = true) as ->.
  { destruct Hbad as [Hbad| ->]; [|apply orb_true_r].
    apply String.eqb_neq in Hbad. by rewrite Hbad. }
  unfold throw, clear_cache, set_cache. cbn [negb].
  destruct invalid_token_markers as [-> ->]. reflexivity.
Qed.

(** X12. A non-2xx answer other than 401 fails with the authentication
    error that carries the status code, and clears the cache. *)
Theorem grant_status_error_carries_status :
  ok response = false →
  status response ≠ 401 →
  getRedditAccessToken env w =
    (Thrown (JS.mkError (msg_grant_failed (status response))),
     with_cache None None (with_request (the_grant_request env) (tick w))).
Proof.
  intros Hok Hstatus. to_grant. rewrite Hresponse, Hok.
  apply Z.eqb_neq in Hstatus. rewrite Hstatus.
  unfold throw, clear_cache, set_cache. cbn [negb].
  by rewrite grant_failed_marker.
Qed.

End GrantOutcomes.

(** X13. A grant request that is rejected (no connection, time-out) is
    counted as sent and clears the cache; the error that leaves the
    function is the connection-failure error, unless the rejection's own
    message happens to contain one of the two markers of the [catch]
    block, in which case it is passed on as it is. *)
Theorem rejected_grant_reported_as_connection_failure (env : Env) (w : World)
    (e : JS.Error) :
  cached_token w (clock env (clock_reads w)) = None →
  credentials_configured env →
  grant_endpoint env (length (sent w)) (the_grant_request env) = Rejected e →
  getRedditAccessToken env w =
    (Thrown (if error_includes e "Failed to authenticate" ||
                error_includes e "Reddit API credentials are missing"
             then e else JS.mkError msg_could_not_connect),
     with_cache None None (with_request (the_grant_request env) (tick w))).
Proof.
  intros Hmiss Hcred Hrejected.
  unfold getRedditAccessToken, bind, Date_now, get_world.
  change (cached_token (tick w) (clock env (clock_reads w)))
    with (cached_token w (clock env (clock_reads w))).
  rewrite Hmiss, (credentials_configured_guard _ Hcred).
  unfold try_catch, bind, fetch.
  change (sent (tick w)) with (sent w). rewrite Hrejected.
  unfold throw, clear_cache, set_cache. cbn [negb].
  destruct (error_includes e "Failed to authenticate"); [reflexivity|].
  destruct (error_includes e "Reddit API credentials are missing"); reflexivity.
Qed.

(** ** Invariants of the token cache *)

Lemma credentials_configured_dec (env : Env) :
  credentials_configured env ∨ ¬ credentials_configured env.
Proof.
  unfold credentials_configured.
  destruct (JS.truthy_string (REDDIT_CLIENT_ID env)),
           (JS.truthy_string (REDDIT_CLIENT_SECRET env));
    [left; done | right; intros [_ H]; discriminate
    | right; intros [H _]; discriminate | right; intros [H _]; discriminate].
Qed.

Lemma getRedditAccessToken_refresh_wf (env : Env) (w : World) :
  cached_token w (clock env (clock_reads w)) = None →
  credentials_configured env →
  cache_wf (getRedditAccessToken env w).2.
Proof.
  intros Hmiss Hcred. unfold getRedditAccessToken, bind, Date_now, get_world.
  change (cached_token (tick w) (clock env (clock_reads w)))
    with (cached_token w (clock env (clock_reads w))).
  rewrite Hmiss, (credentials_configured_guard _ Hcred).
  unfold try_catch, bind, fetch. simpl.
  destruct (grant_endpoint env (length (sent w)) (the_grant_request env))
    as [e|response]; simpl.
  - unfold clear_cache, set_cache, throw. repeat case_match; simplify_eq; exact I.
  - destruct (ok response); simpl.
    + unfold json_of. destruct (json response) as [e|tokenData]; simpl.
      * unfold throw, bind, clear_cache, set_cache.
        repeat case_match; simplify_eq; exact I.
      * destruct (String.eqb (token_type tokenData) "bearer"); simpl.
        -- destruct (JS.truthy (access_token tokenData)) eqn:Htok; simpl.
           ++ apply truthy_nonempty in Htok. exact Htok.
           ++ exact I.
        -- exact I.
    + destruct (status response =? 401); simpl; exact I.
Qed.

(** The token manager keeps the cache well formed. *)
Lemma getRedditAccessToken_keeps_cache_wf (env : Env) (w : World) :
  cache_wf w → cache_wf (getRedditAccessToken env w).2.
Proof.
  intros Hwf.
  destruct (cached_token w (clock env (clock_reads w))) as [t|] eqn:Hc.
  - by rewrite (getRedditAccessToken_hit _ _ _ Hc).
  - destruct (credentials_configured_dec env) as [Hcred|Hcred].
    + by apply getRedditAccessToken_refresh_wf.
    + by rewrite (getRedditAccessToken_credentials_missing _ _ Hc Hcred).
Qed.

Lemma getRedditAccessToken_sent (env : Env) (w : World) :
  sent (getRedditAccessToken env w).2 = sent w ∨
  sent (getRedditAccessToken env w).2 = (sent w ++ [the_grant_request env])%list.
Proof.
  destruct (cached_token w (clock env (clock_reads w))) as [t|] eqn:Hc.
  - left. by rewrite (getRedditAccessToken_hit _ _ _ Hc).
  - destruct (credentials_configured_dec env) as [Hcred|Hcred].
    + right. by destruct (getRedditAccessToken_refresh env w Hc Hcred)
        as (out & w' & -> & Hsent & _).
    + left. by rewrite (getRedditAccessToken_credentials_missing _ _ Hc Hcred).
Qed.

(** ** Runs of the listing fetcher *)

(** The shape of every run: the URL yields no name and nothing happens; or
    the token manager fails and its error is passed on; or the listing
    request is sent with the token obtained, after which the cache is as
    the token manager left it or cleared, and the outcome is a list built
    by the callback, an error carrying one of the markers of the final
    [catch], or the generic error. *)
Lemma scrapeTrendyImages_run (new_URL : string → option URL) (env : Env)
    (subredditUrl : string) (limit : Z) (w : World) :
  (extractSubredditName new_URL subredditUrl = None ∧
   scrapeTrendyImages new_URL env subredditUrl limit w =
     (Thrown (JS.mkError msg_invalid_subreddit_url), w)) ∨
  ∃ name,
    extractSubredditName new_URL subredditUrl = Some name ∧
    ((∃ e w1,
        getRedditAccessToken env w = (Thrown e, w1) ∧
        scrapeTrendyImages new_URL env subredditUrl limit w = (Thrown e, w1)) ∨
     (∃ tok w1 out w2,
        getRedditAccessToken env w = (Returned tok, w1) ∧
        scrapeTrendyImages new_URL env subredditUrl limit w = (out, w2) ∧
        sent w2 = (sent w1 ++ [hot_request env name limit tok])%list ∧
        clock_reads w2 = clock_reads w1 ∧
        ((redditAccessToken w2 = redditAccessToken w1 ∧
          tokenExpiryTime w2 = tokenExpiryTime w1) ∨
         (redditAccessToken w2 = None ∧ tokenExpiryTime w2 = None ∧
          out = Thrown (JS.mkError msg_listing_unauthorized))) ∧
        match out with
        | Returned posts =>
            ∃ listing items, listing_children listing = Some items ∧
                             posts = mediaPosts (forEach_children items)
        | Thrown e =>
            is_specific_error e = true ∨ e = JS.mkError (msg_unexpected name)
        end)).
Proof.
  destruct (extractSubredditName new_URL subredditUrl) as [name|] eqn:Hname.
  2:{ left. split; [reflexivity|]. unfold scrapeTrendyImages. by rewrite Hname. }
  right. exists name. split; [reflexivity|].
  destruct (extractSubredditName_piece _ _ _ Hname) as [Hne _].
  apply truthy_nonempty in Hne.
  destruct (getRedditAccessToken env w) as [[tok|e] w1] eqn:Hget.
  2:{ left. exists e, w1. split; [reflexivity|].
      unfold scrapeTrendyImages. rewrite Hname, Hne. cbn [negb].
      unfold bind, try_catch. by rewrite Hget. }
  right. exists tok, w1.
  unfold scrapeTrendyImages. rewrite Hname, Hne. cbn [negb].
  unfold bind, try_catch. rewrite Hget. unfold fetch.
  destruct (hot_endpoint env (length (sent w1)) (hot_request env name limit tok))
    as [e|response].
  { destruct (is_specific_error e) eqn:He; unfold throw;
      eexists _, _; (split; [reflexivity|]); (split; [reflexivity|]);
      simpl; repeat split; auto. }
  destruct (ok response); cbn [negb].
  - unfold json_of. destruct (json response) as [e|listing].
    + unfold throw. destruct (is_specific_error e) eqn:He;
        eexists _, _; (split; [reflexivity|]); (split; [reflexivity|]);
        simpl; repeat split; auto.
    + unfold ret at 1. destruct (listing_children listing) as [items|] eqn:Hitems.
      * unfold ret. eexists _, _. split; [reflexivity|]. split; [reflexivity|].
        simpl. repeat split; eauto.
      * unfold throw.
        assert (is_specific_error (JS.mkError msg_invalid_structure) = true) as Hs
          by (vm_compute; reflexivity).
        rewrite Hs. eexists _, _. split; [reflexivity|]. split; [reflexivity|].
        simpl. repeat split; auto.
  - unfold throw, clear_cache, set_cache.
    destruct (status response =? 401).
    { rewrite listing_unauthorized_is_specific.
      eexists _, _. split; [reflexivity|]. split; [reflexivity|].
      simpl. repeat split; auto. }
    destruct (status response =? 404).
    { rewrite not_found_is_specific.
      eexists _, _. split; [reflexivity|]. split; [reflexivity|].
      simpl. repeat split; auto using not_found_is_specific. }
    destruct (status response =? 403).
    { destruct (is_specific_error (JS.mkError (msg_access_denied name))) eqn:He;
        eexists _, _; (split; [reflexivity|]); (split; [reflexivity|]);
        simpl; repeat split; auto. }
    destruct (status response =? 429).
    { rewrite rate_limited_is_not_specific.
      eexists _, _. split; [reflexivity|]. split; [reflexivity|].
      simpl. repeat split; auto. }
    destruct (is_specific_error
                (JS.mkError (msg_fetch_failed (status response) (text response))))
      eqn:He;
      eexists _, _; (split; [reflexivity|]); (split; [reflexivity|]);
      simpl; repeat split; auto.
Qed.

(** X14. One fetch sends at most two requests, in this order: at most
    one grant request, then at most one listing request, the latter for
    the extracted community name and with the token that the token manager
    returned. *)
Theorem scrapeTrendyImages_requests (new_URL : string → option URL) (env : Env)
    (subredditUrl : string) (limit : Z) (w : World) :
  ∃ grants hots,
    sent (scrapeTrendyImages new_URL env subredditUrl limit w).2 =
      (sent w ++ grants ++ hots)%list ∧
    (grants = [] ∨ grants = [the_grant_request env]) ∧
    (hots = [] ∨
     ∃ name tok,
       extractSubredditName new_URL subredditUrl = Some name ∧
       (getRedditAccessToken env w).1 = Returned tok ∧
       hots = [hot_request env name limit tok]).
Proof.
  destruct (scrapeTrendyImages_run new_URL env subredditUrl limit w)
    as [[_ ->]|(name & Hname & [(e & w1 & Hget & ->)
                               |(tok & w1 & out & w2 & Hget & -> & Hsent & _)])].
  - exists [], []. simpl. rewrite app_nil_r. auto.
  - destruct (getRedditAccessToken_sent env w) as [Hs|Hs];
      rewrite Hget in Hs; simpl in *.
    + exists [], []. rewrite Hs, app_nil_r. auto.
    + exists [the_grant_request env], []. rewrite Hs, app_nil_r. auto.
  - destruct (getRedditAccessToken_sent env w) as [Hs|Hs];
      rewrite Hget in Hs; simpl in *; rewrite Hsent, Hs.
    + exists [], [hot_request env name limit tok]. split; [reflexivity|].
      split; [by left|]. right. exists name, tok. by rewrite Hget.
    + exists [the_grant_request env], [hot_request env name limit tok].
      split; [by rewrite <- app_assoc|].
      split; [by right|]. right. exists name, tok. by rewrite Hget.
Qed.

(** X15. A failure of the token manager passes through the fetch
    unchanged, and the world is as the token manager left it: no listing
    request is sent. *)
Theorem token_failure_passes_through (new_URL : string → option URL) (env : Env)
    (subredditUrl name : string) (limit : Z) (w w1 : World) (e : JS.Error) :
  extractSubredditName new_URL subredditUrl = Some name →
  getRedditAccessToken env w = (Thrown e, w1) →
  scrapeTrendyImages new_URL env subredditUrl limit w = (Thrown e, w1).
Proof.
  intros Hname Hget.
  destruct (scrapeTrendyImages_run new_URL env subredditUrl limit w)
    as [[Hnone _]|(name' & _ & [(e' & w1' & Hget' & ->)
                                |(tok & w1' & out & w2 & Hget' & _)])].
  - congruence.
  - congruence.
  - congruence.
Qed.

(** X16. The errors that leave the fetch: the invalid-URL error, an
    error of the token manager, an error whose message carries one of the
    markers of the final [catch], or the generic error for the community. *)
Theorem scrapeTrendyImages_errors (new_URL : string → option URL) (env : Env)
    (subredditUrl : string) (limit : Z) (w w' : World) (e : JS.Error) :
  scrapeTrendyImages new_URL env subredditUrl limit w = (Thrown e, w') →
  e = JS.mkError msg_invalid_subreddit_url ∨
  (getRedditAccessToken env w).1 = Thrown e ∨
  is_specific_error e = true ∨
  ∃ name, extractSubredditName new_URL subredditUrl = Some name ∧
          e = JS.mkError (msg_unexpected name).
Proof.
  intros Hrun.
  destruct (scrapeTrendyImages_run new_URL env subredditUrl limit w)
    as [[_ Hrun']|(name & Hname & [(e' & w1 & Hget & Hrun')
                                  |(tok & w1 & out & w2 & Hget & Hrun' & _ & _ & _ & Hout)])];
    rewrite Hrun in Hrun'.
  - left. congruence.
  - right. left. rewrite Hget. simpl. congruence.
  - injection Hrun' as <- <-. destruct Hout as [Hs| ->]; eauto 6.
Qed.

(** X17. The token cache stays well formed: after any call of the token
    manager or of the fetch, the two cache variables are both null or both
    set, and a cached token is never the empty string. *)
Theorem token_cache_stays_well_formed (new_URL : string → option URL) (env : Env)
    (subredditUrl : string) (limit : Z) (w : World) :
  cache_wf w →
  cache_wf (getRedditAccessToken env w).2 ∧
  cache_wf (scrapeTrendyImages new_URL env subredditUrl limit w).2.
Proof.
  intros Hwf.
  pose proof (getRedditAccessToken_keeps_cache_wf env w Hwf) as Hget_wf.
  split; [exact Hget_wf|].
  destruct (scrapeTrendyImages_run new_URL env subredditUrl limit w)
    as [[_ ->]|(name & Hname & [(e' & w1 & Hget & ->)
                               |(tok & w1 & out & w2 & Hget & -> & _ & _ & Hcache & _)])].
  - exact Hwf.
  - by rewrite Hget in Hget_wf.
  - rewrite Hget in Hget_wf. simpl in *. unfold cache_wf in *.
    destruct Hcache as [[-> ->]|(-> & -> & _)]; [exact Hget_wf | exact I].
Qed.

(** ** The token cache on the worlds of a process *)

(** A call of the token manager keeps the cache well formed and fills it
    only when both credentials are configured. *)
Lemma getRedditAccessToken_cache_owner (env : Env) (w : World) :
  cache_wf w ∧ (redditAccessToken w = None ∨ credentials_configured env) →
  cache_wf (getRedditAccessToken env w).2 ∧
  (redditAccessToken (getRedditAccessToken env w).2 = None ∨
   credentials_configured env).
Proof.
  intros [Hwf Hown]. split; [by apply getRedditAccessToken_keeps_cache_wf|].
  destruct (credentials_configured_dec env) as [Hcred|Hcred]; [by right|].
  destruct Hown as [Hnone|Hcred']; [|done]. left.
  assert (cached_token w (clock env (clock_reads w)) = None) as Hmiss
    by (unfold cached_token; by rewrite Hnone).
  by rewrite (getRedditAccessToken_credentials_missing _ _ Hmiss Hcred).
Qed.

(** In every world of a process the cache is well formed, and it holds a
    token only if both credentials are configured: nothing but a
    successful grant fills it. *)
Lemma reachable_cache (new_URL : string → option URL) (env : Env) (w : World) :
  reachable new_URL env w →
  cache_wf w ∧ (redditAccessToken w = None ∨ credentials_configured env).
Proof.
  induction 1 as [w Ht He|w _ IH|w _ IH|w subredditUrl limit _ IH].
  - unfold cache_wf. rewrite Ht, He. split; [exact I | by left].
  - exact IH.
  - by apply getRedditAccessToken_cache_owner.
  - pose proof (getRedditAccessToken_cache_owner env w IH) as Hget.
    destruct (scrapeTrendyImages_run new_URL env subredditUrl limit w)
      as [[_ ->]|(name & Hname & [(e' & w1 & Hg & ->)
                                 |(tok & w1 & out & w2 & Hg & -> & _ & _ & Hcache & _)])].
    + exact IH.
    + by rewrite Hg in Hget.
    + rewrite Hg in Hget. simpl in *. destruct Hget as [Hwf Hown].
      unfold cache_wf in *.
      destruct Hcache as [[-> ->]|(-> & -> & _)]; [done | split; [exact I | by left]].
Qed.



(** C10. In every world a process can be in, a call of the token manager
    that fails leaves both cache variables null, whatever the failure; and
    a call that misses the cache, with both credentials configured, does
    fail, with the cache cleared, whenever the grant request is rejected
    (a network failure), answered with a non-2xx status (401 or any
    other), or answered with a body that is not a usable bearer token. *)
Theorem getRedditAccessToken_failure_clears_cache (new_URL : string → option URL)
    (env : Env) (w : World) :
  reachable new_URL env w →
  (∀ e w', getRedditAccessToken env w = (Thrown e, w') →
           redditAccessToken w' = None ∧ tokenExpiryTime w' = None) ∧
  (cached_token w (clock env (clock_reads w)) = None →
   credentials_configured env →
   grant_fails env w →
   ∃ e w', getRedditAccessToken env w = (Thrown e, w') ∧
           redditAccessToken w' = None ∧ tokenExpiryTime w' = None).
Proof.
  intros Hreach.
  destruct (reachable_cache _ _ _ Hreach) as [Hwf Hown].
  assert (∀ e w', getRedditAccessToken env w = (Thrown e, w') →
                  redditAccessToken w' = None ∧ tokenExpiryTime w' = None) as Hclear.
  { intros e w' Hrun.
    destruct (cached_token w (clock env (clock_reads w))) as [t|] eqn:Hc.
    { rewrite (getRedditAccessToken_hit _ _ _ Hc) in Hrun. discriminate. }
    destruct (credentials_configured_dec env) as [Hcred|Hcred].
    - destruct (getRedditAccessToken_refresh env w Hc Hcred)
        as (out & w'' & Hrun' & _ & Hout).
      rewrite Hrun in Hrun'. injection Hrun' as <- <-. exact Hout.
    - rewrite (getRedditAccessToken_credentials_missing _ _ Hc Hcred) in Hrun.
      injection Hrun as _ <-.
      destruct Hown as [Hnone|Hcred']; [|done].
      unfold cache_wf in Hwf. rewrite Hnone in Hwf. simpl.
      split; [exact Hnone|]. by destruct (tokenExpiryTime w). }
  split; [exact Hclear|].
  intros Hmiss Hcred Hfail.
  destruct (grant_fails_thrown env w Hmiss Hcred Hfail) as (e & w' & Hrun).
  exists e, w'. split; [exact Hrun | by apply (Hclear e)].
Qed.

Lemma getRedditAccessToken_failure_clears_cache_witness :
  redditAccessToken (MoreSamples.after_first_call MoreSamples.env_flaky) =
    Some "token-2" ∧
  ∃ e w',
    getRedditAccessToken MoreSamples.env_flaky
      (MoreSamples.after_first_call MoreSamples.env_flaky) = (Thrown e, w') ∧
    redditAccessToken w' = None ∧ tokenExpiryTime w' = None.
Proof.
  split; [reflexivity|].
  destruct (getRedditAccessToken_failure_clears_cache Sample.simple_URL
              MoreSamples.env_flaky
              (MoreSamples.after_first_call MoreSamples.env_flaky))
    as [_ Hfails].
  - apply reachable_getRedditAccessToken, reachable_loaded; reflexivity.
  - apply Hfails; [reflexivity | split; reflexivity | left; reflexivity].
Defined.

(** The world in which the cache holds a token while the environment has
    no credentials is not a world of any process. The hypothesis of the
    two statements above is needed: the credentials check of lines 180-183
    stands between the cache test and the [try] block, so in that world
    the call sends nothing and fails with the cached token left behind. *)
Example cached_token_without_credentials (new_URL : string → option URL) :
  ¬ reachable new_URL Sample.env_no_credentials (Sample.cached_world 1000) ∧
  getRedditAccessToken Sample.env_no_credentials (Sample.cached_world 1000) =
    (Thrown (JS.mkError msg_credentials_missing), tick (Sample.cached_world 1000)) ∧
  sent (tick (Sample.cached_world 1000)) = [] ∧
  redditAccessToken (tick (Sample.cached_world 1000)) = Some "token-0".
Proof.
  split; [|repeat split; reflexivity].
  intros Hreach. destruct (reachable_cache _ _ _ Hreach) as [_ [Hnone|[Hid _]]];
    discriminate.
Qed.

Section ListingBody.

Variable new_URL : string → option URL.
Variable env : Env.
Variables (subredditUrl name tok : string) (limit : Z) (w w1 : World).
Variable response : Response RedditApiResponse.

Hypothesis Hname : extractSubredditName new_URL subredditUrl = Some name.
Hypothesis Htoken : getRedditAccessToken env w = (Returned tok, w1).
Hypothesis Hresponse :
  hot_endpoint env (length (sent w1)) (hot_request env name limit tok) =
    Responded response.
Hypothesis Hok : ok response = true.

(** The run up to the decoding of the body. *)
Local Ltac to_body :=
  unfold scrapeTrendyImages; rewrite Hname;
  rewrite (proj2 (truthy_nonempty name)
             (proj1 (extractSubredditName_piece _ _ _ Hname)));
  cbn [negb]; unfold bind, try_catch; rewrite Htoken;
  unfold fetch; rewrite Hresponse, Hok; cbn [negb]; unfold json_of.

(** X19. A 2xx answer whose body decodes to something that is not a
    listing with children fails with the invalid-structure error, which
    the final [catch] lets through. *)
Theorem malformed_listing_rejected (listing : RedditApiResponse) :
  json response = inr listing →
  listing_children listing = None →
  scrapeTrendyImages new_URL env subredditUrl limit w =
    (Thrown (JS.mkError msg_invalid_structure),
     with_request (hot_request env name limit tok) w1).
Proof.
  intros Hjson Hitems. to_body. rewrite Hjson. unfold ret at 1. rewrite Hitems.
  unfold throw.
  assert (is_specific_error (JS.mkError msg_invalid_structure) = true) as ->
    by (vm_compute; reflexivity).
  reflexivity.
Qed.

End ListingBody.

(** ** More on the sanitiser *)

Lemma sanitize_iteration_counts (new_URL : string → option URL)
    (allowed : gset string) (st : Sanitizing) (post : MediaPost) :
  let st' := sanitize_iteration new_URL allowed st post in
  Z.of_nat (length (sanitizedImages st')) + invalidUrlCount st' + nonImageCount st' =
    Z.of_nat (length (sanitizedImages st)) + invalidUrlCount st + nonImageCount st + 1 ∧
  nonImageCount st' =
    nonImageCount st + (if decide (mediaType post = image) then 0 else 1).
Proof.
  unfold sanitize_iteration.
  destruct (decide (mediaType post = image)) as [Himg|Himg].
  - rewrite (bool_decide_eq_true_2 _ Himg). cbn [negb].
    destruct (isValidAndAllowedUrl new_URL (mediaUrl post) allowed); simpl.
    + rewrite length_app. simpl. lia.
    + lia.
  - rewrite (bool_decide_eq_false_2 _ Himg). simpl. lia.
Qed.

(** X20. The loop of the sanitiser accounts for every post: kept posts,
    posts dropped for their URL and posts dropped for their type add up to
    the input, and the type counter is the number of non-image posts. *)
Theorem sanitize_loop_accounts (new_URL : string → option URL)
    (media : list MediaPost) (allowedHostnames : gset string) :
  let st := fold_left (sanitize_iteration new_URL allowedHostnames) media
              {| sanitizedImages := []; invalidUrlCount := 0; nonImageCount := 0 |} in
  sanitizedImages st = sanitizeAndFilterImages new_URL media allowedHostnames ∧
  Z.of_nat (length (sanitizedImages st)) + invalidUrlCount st + nonImageCount st =
    Z.of_nat (length media) ∧
  nonImageCount st = Z.of_nat (length (filter (λ p, mediaType p ≠ image) media)).
Proof.
  cbv zeta. split; [reflexivity|].
  enough (∀ st,
    Z.of_nat (length (sanitizedImages
       (fold_left (sanitize_iteration new_URL allowedHostnames) media st))) +
      invalidUrlCount (fold_left (sanitize_iteration new_URL allowedHostnames) media st) +
      nonImageCount (fold_left (sanitize_iteration new_URL allowedHostnames) media st) =
    Z.of_nat (length (sanitizedImages st)) + invalidUrlCount st + nonImageCount st +
      Z.of_nat (length media) ∧
    nonImageCount (fold_left (sanitize_iteration new_URL allowedHostnames) media st) =
      nonImageCount st + Z.of_nat (length (filter (λ p, mediaType p ≠ image) media)))
    as H by (destruct (H {| sanitizedImages := []; invalidUrlCount := 0;
                            nonImageCount := 0 |}) as [H1 H2];
             simpl in *; lia).
  induction media as [|post media IH]; intros st; simpl fold_left.
  - simpl. lia.
  - destruct (IH (sanitize_iteration new_URL allowedHostnames st post)) as [-> ->].
    destruct (sanitize_iteration_counts new_URL allowedHostnames st post) as [-> ->].
    destruct (decide (mediaType post = image)) as [Himg|Himg].
    + rewrite filter_cons_False by (intros H; done). simpl length. lia.
    + rewrite filter_cons_True by done. simpl length. lia.
Qed.

(** X21. The sanitiser works post by post: the output for a
    concatenation is the concatenation of the outputs. *)
Theorem sanitizeAndFilterImages_app (new_URL : string → option URL)
    (media1 media2 : list MediaPost) (allowedHostnames : gset string) :
  sanitizeAndFilterImages new_URL (media1 ++ media2) allowedHostnames =
  (sanitizeAndFilterImages new_URL media1 allowedHostnames ++
   sanitizeAndFilterImages new_URL media2 allowedHostnames)%list.
Proof. rewrite !sanitizeAndFilterImages_filter. apply filter_app. Qed.

Lemma filter_sublist_mono {A : Type} (P Q : A → Prop)
    `{!∀ x, Decision (P x)} `{!∀ x, Decision (Q x)} (l : list A) :
  (∀ x, P x → Q x) → filter P l `sublist_of` filter Q l.
Proof.
  intros HPQ. induction l as [|x l IH]; [constructor|].
  destruct (decide (P x)) as [HP|HP].
  - rewrite (filter_cons_True P _ _ HP), (filter_cons_True Q _ _ (HPQ _ HP)).
    by constructor.
  - rewrite (filter_cons_False P _ _ HP).
    destruct (decide (Q x)) as [HQ|HQ].
    + rewrite (filter_cons_True Q _ _ HQ). by constructor.
    + by rewrite (filter_cons_False Q _ _ HQ).
Qed.

Lemma isValidAndAllowedUrl_mono (new_URL : string → option URL)
    (u : string) (allowed allowed' : gset string) :
  allowed ⊆ allowed' →
  isValidAndAllowedUrl new_URL u allowed = true →
  isValidAndAllowedUrl new_URL u allowed' = true.
Proof.
  unfold isValidAndAllowedUrl. intros Hsub.
  destruct (JS.truthy u); simpl; [|done].
  destruct (new_URL u) as [parsed|]; [|done].
  intros H. apply andb_true_iff in H as [-> Hh]. simpl.
  apply bool_decide_eq_true in Hh. apply bool_decide_eq_true. by apply Hsub.
Qed.

(** X22. The output of the sanitiser is a subsequence of its input, and
    allowing more host names only adds posts: the output for a set of host
    names is a subsequence of the output for any larger set. *)
Theorem sanitizeAndFilterImages_monotone (new_URL : string → option URL)
    (media : list MediaPost) (allowed allowed' : gset string) :
  allowed ⊆ allowed' →
  sanitizeAndFilterImages new_URL media allowed
    `sublist_of` sanitizeAndFilterImages new_URL media allowed' ∧
  sanitizeAndFilterImages new_URL media allowed' `sublist_of` media.
Proof.
  intros Hsub. rewrite !sanitizeAndFilterImages_filter. split; [|apply sublist_filter].
  apply filter_sublist_mono. intros post [Himg Hvalid].
  split; [exact Himg|]. by apply (isValidAndAllowedUrl_mono _ _ allowed).
Qed.

Lemma NoDup_fmap_filter {A B : Type} (f : A → B) (P : A → Prop)
    `{!∀ x, Decision (P x)} (l : list A) :
  NoDup (f <$> l) → NoDup (f <$> filter P l).
Proof.
  induction l as [|x l IH]; [done|].
  rewrite fmap_cons, NoDup_cons. intros [Hx Hl].
  destruct (decide (P x)) as [HP|HP].
  - rewrite (filter_cons_True _ _ _ HP), fmap_cons, NoDup_cons. split; [|auto].
    intros Hin. apply Hx. apply list_elem_of_fmap in Hin as (y & Hy & Hin).
    apply list_elem_of_filter in Hin as [_ Hin].
    apply list_elem_of_fmap. eauto.
  - rewrite (filter_cons_False _ _ _ HP). auto.
Qed.

(** X23. The sanitiser keeps URLs distinct: a list without two posts of
    one URL is mapped to such a list. *)
Theorem sanitizeAndFilterImages_NoDup (new_URL : string → option URL)
    (media : list MediaPost) (allowedHostnames : gset string) :
  NoDup (mediaUrl <$> media) →
  NoDup (mediaUrl <$> sanitizeAndFilterImages new_URL media allowedHostnames).
Proof. rewrite sanitizeAndFilterImages_filter. apply NoDup_fmap_filter. Qed.

(** Every post the sanitiser keeps is an image whose URL passes the test
    of the code. *)
Lemma sanitizeAndFilterImages_kept (new_URL : string → option URL)
    (media : list MediaPost) (allowedHostnames : gset string) :
  Forall (kept new_URL allowedHostnames)
    (sanitizeAndFilterImages new_URL media allowedHostnames).
Proof.
  rewrite sanitizeAndFilterImages_filter. apply Forall_forall.
  intros post Hpost. by apply list_elem_of_filter in Hpost as [Hkept _].
Qed.

(** ** The allowed host names *)

(** A host name is allowed exactly when it is one of the five built-in
    names or a non-empty host name of the image configuration. *)
Lemma getAllowedHostnames_elem (configHostnames : list string) (h : string) :
  h ∈ getAllowedHostnames configHostnames ↔
  h ∈ ["i.redd.it"; "preview.redd.it"; "imgur.com"; "files.catbox.moe"; "picsum.photos"] ∨
  (h ∈ configHostnames ∧ h ≠ "").
Proof.
  unfold getAllowedHostnames.
  rewrite !elem_of_union, elem_of_list_to_set, list_elem_of_In, List.filter_In,
    <- list_elem_of_In, truthy_nonempty.
  rewrite !elem_of_cons, !elem_of_singleton. rewrite elem_of_nil.
  tauto.
Qed.

Lemma elem_of_filter_truthy (l : list string) (h : string) :
  h ∈ List.filter JS.truthy l ↔ h ∈ l ∧ h ≠ "".
Proof. by rewrite list_elem_of_In, List.filter_In, <- list_elem_of_In, truthy_nonempty. Qed.

Lemma Set_add_elem (l : list string) (x h : string) :
  h ∈ Set_add l x ↔ h ∈ l ∨ h = x.
Proof.
  unfold Set_add. case_bool_decide as Hx.
  - split; [auto|]. intros [H| ->]; done.
  - rewrite elem_of_app, list_elem_of_singleton. done.
Qed.

Lemma Set_add_NoDup (l : list string) (x : string) :
  NoDup l → NoDup (Set_add l x).
Proof.
  unfold Set_add. intros Hl. case_bool_decide as Hx; [exact Hl|].
  apply NoDup_app. split; [exact Hl|]. split; [|apply NoDup_singleton].
  intros y Hy Hy'. apply list_elem_of_singleton in Hy'. by subst.
Qed.

Lemma Set_add_prefix (l : list string) (x : string) : l `prefix_of` Set_add l x.
Proof.
  unfold Set_add. case_bool_decide; [done|]. by apply prefix_app_r.
Qed.

Lemma fold_Set_add (xs l : list string) :
  NoDup l →
  NoDup (fold_left Set_add xs l) ∧
  l `prefix_of` fold_left Set_add xs l ∧
  ∀ h, h ∈ fold_left Set_add xs l ↔ h ∈ l ∨ h ∈ xs.
Proof.
  revert l. induction xs as [|x xs IH]; intros l Hl; simpl.
  - split; [exact Hl|]. split; [done|]. intros h. rewrite elem_of_nil. tauto.
  - destruct (IH (Set_add l x) (Set_add_NoDup _ _ Hl)) as (Hnd & Hpre & Hel).
    split; [exact Hnd|]. split.
    + etrans; [apply Set_add_prefix | exact Hpre].
    + intros h. rewrite Hel, Set_add_elem, elem_of_cons. tauto.
Qed.

(** X24. A host name is allowed exactly when it is one of the five
    built-in names or a non-empty host name of the image configuration
    (the hosts of videos and embeds are not built in). Listed in insertion
    order, the allowed host names have no repetition, start with the four
    built-in media hosts, and are exactly the members of the set that the
    sanitiser consults. *)
Theorem allowed_hostnames_spec (configHostnames : list string) :
  (∀ h, h ∈ getAllowedHostnames configHostnames ↔
        h ∈ ["i.redd.it"; "preview.redd.it"; "imgur.com"; "files.catbox.moe";
             "picsum.photos"] ∨
        (h ∈ configHostnames ∧ h ≠ "")) ∧
  NoDup (allowed_in_order configHostnames) ∧
  ["i.redd.it"; "preview.redd.it"; "imgur.com"; "files.catbox.moe"]
    `prefix_of` allowed_in_order configHostnames ∧
  ∀ h, h ∈ allowed_in_order configHostnames ↔ h ∈ getAllowedHostnames configHostnames.
Proof.
  split; [intros h; apply getAllowedHostnames_elem|].
  unfold allowed_in_order.
  assert (fold_left Set_add
            ["i.redd.it"; "preview.redd.it"; "imgur.com"; "files.catbox.moe"] [] =
          ["i.redd.it"; "preview.redd.it"; "imgur.com"; "files.catbox.moe"]) as ->
    by (vm_compute; reflexivity).
  destruct (fold_Set_add (List.filter JS.truthy configHostnames)
              ["i.redd.it"; "preview.redd.it"; "imgur.com"; "files.catbox.moe"])
    as (Hnd & Hpre & Hel).
  { apply (bool_decide_unpack _). by vm_compute. }
  split; [by apply Set_add_NoDup|]. split.
  - etrans; [exact Hpre | apply Set_add_prefix].
  - intros h. rewrite Set_add_elem, Hel, getAllowedHostnames_elem.
    rewrite elem_of_filter_truthy, !elem_of_cons, !elem_of_nil. tauto.
Qed.

(** ** The server action *)

Section ActionFacts.

Variable new_URL : string → option URL.
Variable env : Env.
Variable urlSchema_safeParse : option string → SafeParse string.
Variable limitSchema_safeParse : option string → SafeParse Z.
Variable configHostnames : list string.

(** The shape of every run of the action. *)
Lemma scrapeSubredditAction_run (prevState : ScrapeState) (formData : FormData)
    (w : World) :
  (fails_early env urlSchema_safeParse limitSchema_safeParse formData ∧
   ∃ m, scrapeSubredditAction new_URL env urlSchema_safeParse limitSchema_safeParse
      configHostnames prevState formData w =
          (Returned {| media_of := None; error_of := Some m; message_of := None;
                       timestamp := clock env (clock_reads w) |}, tick w)) ∨
  (∃ validatedUrl validatedLimit,
     urlSchema_safeParse (form_subredditUrl formData) = parse_success validatedUrl ∧
     limitSchema_safeParse (form_limit formData) = parse_success validatedLimit ∧
     credentials_configured env ∧
     ((∃ e w1,
         scrapeTrendyImages new_URL env validatedUrl validatedLimit w = (Thrown e, w1) ∧
         scrapeSubredditAction new_URL env urlSchema_safeParse limitSchema_safeParse
      configHostnames prevState formData w =
           (Returned {| media_of := None;
                        error_of := Some (action_error_message (JS.message e));
                        message_of := None;
                        timestamp := clock env (clock_reads w1) |}, tick w1)) ∨
      (∃ rawMedia w1 m,
         scrapeTrendyImages new_URL env validatedUrl validatedLimit w =
           (Returned rawMedia, w1) ∧
         scrapeSubredditAction new_URL env urlSchema_safeParse limitSchema_safeParse
      configHostnames prevState formData w =
           (Returned {| media_of :=
                          Some (sanitizeAndFilterImages new_URL rawMedia
                                  (getAllowedHostnames configHostnames));
                        error_of := None;
                        message_of := Some m;
                        timestamp := clock env (clock_reads w1) |}, tick w1)))).
Proof.
  unfold scrapeSubredditAction, fails_early.
  destruct (urlSchema_safeParse (form_subredditUrl formData)) as [validatedUrl|m] eqn:Hu.
  2:{ left. split; [eauto|]. eexists. reflexivity. }
  destruct (limitSchema_safeParse (form_limit formData)) as [validatedLimit|m] eqn:Hl.
  2:{ left. split; [eauto|]. eexists. reflexivity. }
  destruct (credentials_configured_dec env) as [Hcred|Hcred].
  2:{ left. split; [auto|]. exists msg_action_credentials.
      destruct (JS.truthy_string (REDDIT_CLIENT_ID env)) eqn:Hid;
        destruct (JS.truthy_string (REDDIT_CLIENT_SECRET env)) eqn:Hs;
        try reflexivity.
      exfalso. apply Hcred. by split. }
  right. exists validatedUrl, validatedLimit.
  split; [reflexivity|]. split; [reflexivity|]. split; [exact Hcred|].
  rewrite (credentials_configured_guard _ Hcred).
  destruct (scrapeTrendyImages new_URL env validatedUrl validatedLimit w)
    as [[rawMedia|e] w1] eqn:Hscrape.
  - right. exists rawMedia, w1.
    unfold try_catch, bind. rewrite Hscrape.
    destruct (sanitizeAndFilterImages new_URL rawMedia
                (getAllowedHostnames configHostnames)) as [|post rest] eqn:Hf.
    + eexists. split; [reflexivity|]. reflexivity.
    + eexists. split; [reflexivity|]. reflexivity.
  - left. exists e, w1. split; [reflexivity|].
    unfold try_catch, bind. rewrite Hscrape. reflexivity.
Qed.

(** The action keeps a process among its worlds: it reads the clock,
    after at most one call of the fetcher. *)
Lemma reachable_scrapeSubredditAction (prevState : ScrapeState)
    (formData : FormData) (w : World) :
  reachable new_URL env w →
  reachable new_URL env
    (scrapeSubredditAction new_URL env urlSchema_safeParse limitSchema_safeParse
       configHostnames prevState formData w).2.
Proof.
  intros Hreach.
  destruct (scrapeSubredditAction_run prevState formData w)
    as [[_ (m & ->)]|(validatedUrl & validatedLimit & _ & _ & _ &
                      [(e & w1 & Hscrape & ->)|(rawMedia & w1 & m & Hscrape & ->)])];
    simpl; apply reachable_Date_now; [exact Hreach| |];
    replace w1 with (scrapeTrendyImages new_URL env validatedUrl validatedLimit w).2
      by (by rewrite Hscrape);
    by apply reachable_scrapeTrendyImages.
Qed.

(** X25. The action never throws: it always returns a state, which is
    either a failure (an error message, media and message null) or a
    success (no error, a media list and a message). *)
Theorem scrapeSubredditAction_returns_state (prevState : ScrapeState)
    (formData : FormData) (w : World) :
  ∃ st w',
    scrapeSubredditAction new_URL env urlSchema_safeParse limitSchema_safeParse
      configHostnames prevState formData w = (Returned st, w') ∧
    ((∃ m, error_of st = Some m ∧ media_of st = None ∧ message_of st = None) ∨
     (∃ l m, error_of st = None ∧ media_of st = Some l ∧ message_of st = Some m)).
Proof.
  destruct (scrapeSubredditAction_run prevState formData w)
    as [[_ (m & ->)]|(vu & vl & _ & _ & _ & [(e & w1 & _ & ->)|(raw & w1 & m & _ & ->)])];
    eexists _, _; (split; [reflexivity|]); simpl; eauto 10.
Qed.

(** X26. Every post that the action hands to the page is an image whose
    URL passes the allow-list test, and no two of them have one URL. *)
Theorem scrapeSubredditAction_media (prevState : ScrapeState)
    (formData : FormData) (w w' : World) (st : ScrapeState) (l : list MediaPost) :
  scrapeSubredditAction new_URL env urlSchema_safeParse limitSchema_safeParse
      configHostnames prevState formData w = (Returned st, w') →
  media_of st = Some l →
  Forall (kept new_URL (getAllowedHostnames configHostnames)) l ∧
  NoDup (mediaUrl <$> l).
Proof.
  intros Hrun Hmedia.
  destruct (scrapeSubredditAction_run prevState formData w)
    as [[_ (m & Hrun')]|(vu & vl & _ & _ & _ & [(e & w1 & _ & Hrun')
                                               |(raw & w1 & m & Hraw & Hrun')])];
    rewrite Hrun in Hrun'; injection Hrun' as -> _; simpl in Hmedia; try discriminate.
  injection Hmedia as <-. split.
  - apply sanitizeAndFilterImages_kept.
  - rewrite sanitizeAndFilterImages_filter. apply NoDup_fmap_filter.
    apply scrapeTrendyImages_returned in Hraw as (listing & items & _ & ->).
    apply forEach_children_NoDup.
Qed.

(** X27. When a field does not validate or a credential is missing, the
    action fails without touching the network or the cache: the only
    effect is the clock reading for the time stamp. *)
Theorem scrapeSubredditAction_fails_early (prevState : ScrapeState)
    (formData : FormData) (w : World) :
  fails_early env urlSchema_safeParse limitSchema_safeParse formData →
  ∃ m, scrapeSubredditAction new_URL env urlSchema_safeParse limitSchema_safeParse
      configHostnames prevState formData w =
         (Returned {| media_of := None; error_of := Some m; message_of := None;
                      timestamp := clock env (clock_reads w) |}, tick w).
Proof.
  intros Hearly.
  destruct (scrapeSubredditAction_run prevState formData w)
    as [[_ H]|(vu & vl & Hu & Hl & Hcred & _)]; [exact H|].
  destruct Hearly as [(m & Hm)|[(m & Hm)|Hno]]; [congruence | congruence | done].
Qed.

End ActionFacts.

(** ** The download name *)

Lemma Forall_trimStart (P : N → Prop) (s : JSString.CodeUnits) :
  Forall P s → Forall P (JSString.trimStart s).
Proof.
  induction 1 as [|c s Hc Hs IH]; simpl; [constructor|].
  destruct (JSString.is_space c); [exact IH | by constructor].
Qed.

Lemma Forall_trim (P : N → Prop) (s : JSString.CodeUnits) :
  Forall P s → Forall P (JSString.trim s).
Proof.
  intros H. unfold JSString.trim.
  by apply Forall_rev, Forall_trimStart, Forall_rev, Forall_trimStart.
Qed.

Lemma Forall_replaced (title : JSString.CodeUnits) :
  Forall (λ c, filename_char c = true)
    ((λ c, if filename_char c then c else 95%N) <$> title).
Proof.
  apply Forall_fmap, Forall_forall. intros c _. simpl.
  destruct (filename_char c) eqn:Hc; [exact Hc | reflexivity].
Qed.

(** X28. The stem of a download name is never empty, has at most 50 code
    units, and is made of ASCII letters, digits, underscores, hyphens and
    white space only, whatever the code units of the title: no other code
    unit occurs in it, and in particular no slash, backslash, dot or
    colon. *)
Theorem download_stem_safe (title : JSString.CodeUnits) :
  download_stem title ≠ [] ∧
  (length (download_stem title) ≤ 50)%nat ∧
  Forall (λ c, filename_char c = true) (download_stem title) ∧
  (∀ c, filename_char c = false → c ∉ download_stem title) ∧
  Forall (λ c, c ∉ download_stem title) (JSString.code_units "/\.:").
Proof.
  assert (download_stem title ≠ [] ∧
          (length (download_stem title) ≤ 50)%nat ∧
          Forall (λ c, filename_char c = true) (download_stem title)) as (H1 & H2 & H3).
  { unfold download_stem.
    set (replaced := JSString.trim ((λ c, if filename_char c then c else 95%N) <$> title)).
    assert (Forall (λ c, filename_char c = true) (take 50 replaced)) as Hall
      by apply Forall_take, Forall_trim, Forall_replaced.
    assert (length (take 50 replaced) ≤ 50)%nat as Hlen
      by (rewrite length_take; lia).
    destruct (take 50 replaced) as [|c cleaned].
    - split; [discriminate|]. split; [simpl; lia|].
      apply (bool_decide_unpack _). by vm_compute.
    - split; [discriminate|]. split; [lia | exact Hall]. }
  assert (∀ c, filename_char c = false → c ∉ download_stem title) as H4.
  { intros c Hc Hin. rewrite Forall_forall in H3. rewrite (H3 _ Hin) in Hc. discriminate. }
  split; [exact H1|]. split; [exact H2|]. split; [exact H3|]. split; [exact H4|].
  repeat constructor; apply H4; reflexivity.
Qed.

Lemma or_else_nonempty (x : option string) (d : string) :
  d ≠ "" → JSString.or_else x d ≠ "".
Proof.
  intros Hd. unfold JSString.or_else.
  destruct (JS.truthy_string x) eqn:Hx; [by apply truthy_the_string | exact Hd].
Qed.

Lemma or_else_cases (x : option string) (d : string) :
  JSString.or_else x d = d ∨ x = Some (JSString.or_else x d).
Proof.
  unfold JSString.or_else.
  destruct x as [s|]; simpl; [|by left].
  destruct (JS.truthy s); [by right | by left].
Qed.

(** X29. The extension of a download name is never empty. It is one of
    the seven known extensions, unless the type of the fetched blob starts
    with [image/] or [video/], in which case it may be the subtype named
    there; text taken from the URL is used only when it is a known
    extension. *)
Theorem download_extension_spec (url blobType : string) :
  download_extension url blobType ≠ "" ∧
  (download_extension url blobType ∈ knownExtensions ∨
   ((JS.startsWith blobType "image/" = true ∨ JS.startsWith blobType "video/" = true) ∧
    JSString.split_by blobType "/" !! 1%nat = Some (download_extension url blobType))).
Proof.
  unfold download_extension.
  set (extension := JSString.or_else _ "jpg").
  case_bool_decide as Hknown.
  - split; [|by left].
    intros Hempty. rewrite Hempty in Hknown. unfold knownExtensions in Hknown.
    repeat (apply elem_of_cons in Hknown as [Hknown|Hknown]; [discriminate|]).
    by apply elem_of_nil in Hknown.
  - assert ("jpg" ∈ knownExtensions) as Hjpg by (apply (bool_decide_unpack _); by vm_compute).
    assert ("mp4" ∈ knownExtensions) as Hmp4 by (apply (bool_decide_unpack _); by vm_compute).
    destruct (JS.truthy blobType && JS.startsWith blobType "image/") eqn:Himg.
    + apply andb_true_iff in Himg as [_ Himg].
      split; [by apply or_else_nonempty|].
      destruct (or_else_cases (JSString.split_by blobType "/" !! 1%nat) "jpg") as [->|E];
        [by left | right; auto].
    + destruct (JS.truthy blobType && JS.startsWith blobType "video/") eqn:Hvid.
      * apply andb_true_iff in Hvid as [_ Hvid].
        split; [by apply or_else_nonempty|].
        destruct (or_else_cases (JSString.split_by blobType "/" !! 1%nat) "mp4") as [->|E];
          [by left | right; auto].
      * split; [discriminate | by left].
Qed.

(** ** The further statements at concrete inputs *)

Lemma grant_success_then_cached_witness :
  ∃ w',
    getRedditAccessToken Sample.env_ok Sample.fresh_world = (Returned "token-1", w') ∧
    sent w' = [the_grant_request Sample.env_ok] ∧
    redditAccessToken w' = Some "token-1" ∧
    tokenExpiryTime w' = Some (1000001 + (3600 - 300) * 1000) ∧
    (0 <= clock Sample.env_ok (clock_reads w') < 1000001 + (3600 - 300) * 1000 →
     ∃ w'', getRedditAccessToken Sample.env_ok w' = (Returned "token-1", w'') ∧
            sent w'' = sent w').
Proof.
  apply (grant_success_then_cached Sample.env_ok Sample.fresh_world eq_refl
           (conj eq_refl eq_refl)
           {| status := 200; text := "grant body"; json := inr Sample.bearer_token |}
           eq_refl Sample.bearer_token);
    [reflexivity | reflexivity | reflexivity | discriminate
    | vm_compute; split; discriminate | vm_compute; split; discriminate
    | vm_compute; split; discriminate | vm_compute; split; discriminate
    | vm_compute; split; discriminate].
Defined.

Lemma short_lived_token_not_reused_witness :
  ∃ w',
    getRedditAccessToken MoreSamples.env_short_lived Sample.fresh_world =
      (Returned "token-2", w') ∧
    sent (getRedditAccessToken MoreSamples.env_short_lived w').2 =
      (sent w' ++ [the_grant_request MoreSamples.env_short_lived])%list.
Proof.
  apply (short_lived_token_not_reused MoreSamples.env_short_lived Sample.fresh_world
           eq_refl (conj eq_refl eq_refl)
           (MoreSamples.token_response MoreSamples.short_lived_token)
           eq_refl MoreSamples.short_lived_token);
    [reflexivity | reflexivity | reflexivity | discriminate
    | vm_compute; discriminate | vm_compute; discriminate].
Defined.

Lemma unusable_token_reported_as_connection_failure_witness :
  getRedditAccessToken MoreSamples.env_mac (Sample.cached_world 1000) =
  (Thrown (JS.mkError msg_could_not_connect),
   with_cache None None
     (with_request (the_grant_request MoreSamples.env_mac)
        (tick (Sample.cached_world 1000)))).
Proof.
  apply (unusable_token_reported_as_connection_failure MoreSamples.env_mac
           (Sample.cached_world 1000) eq_refl (conj eq_refl eq_refl)
           (MoreSamples.token_response MoreSamples.mac_token) eq_refl
           MoreSamples.mac_token);
    [reflexivity | reflexivity | left; discriminate].
Defined.

Lemma grant_status_error_carries_status_witness :
  getRedditAccessToken MoreSamples.env_unavailable Sample.fresh_world =
  (Thrown (JS.mkError (msg_grant_failed 503)),
   with_cache None None
     (with_request (the_grant_request MoreSamples.env_unavailable)
        (tick Sample.fresh_world))).
Proof.
  apply (grant_status_error_carries_status MoreSamples.env_unavailable
           Sample.fresh_world eq_refl (conj eq_refl eq_refl) MoreSamples.unavailable
           eq_refl);
    [reflexivity | discriminate].
Defined.

Lemma rejected_grant_reported_as_connection_failure_witness :
  getRedditAccessToken MoreSamples.env_rejecting Sample.fresh_world =
  (Thrown (JS.mkError msg_could_not_connect),
   with_cache None None
     (with_request (the_grant_request MoreSamples.env_rejecting)
        (tick Sample.fresh_world))).
Proof.
  apply (rejected_grant_reported_as_connection_failure MoreSamples.env_rejecting
           Sample.fresh_world (JS.mkError "fetch failed"));
    [reflexivity | split; reflexivity | reflexivity].
Defined.

Lemma token_failure_passes_through_witness :
  scrapeTrendyImages Sample.simple_URL MoreSamples.env_unavailable
    Sample.pics_url 25 Sample.fresh_world =
  (Thrown (JS.mkError (msg_grant_failed 503)),
   with_cache None None
     (with_request (the_grant_request MoreSamples.env_unavailable)
        (tick Sample.fresh_world))).
Proof.
  apply (token_failure_passes_through Sample.simple_URL MoreSamples.env_unavailable
           Sample.pics_url "pics" 25 Sample.fresh_world);
    [reflexivity | vm_compute; reflexivity].
Defined.

Lemma scrapeTrendyImages_errors_witness :
  JS.mkError (msg_unexpected "pics") = JS.mkError msg_invalid_subreddit_url ∨
  (getRedditAccessToken (Sample.env_with (Some "my-id") (Some "my-secret") 200 429)
     Sample.fresh_world).1 = Thrown (JS.mkError (msg_unexpected "pics")) ∨
  is_specific_error (JS.mkError (msg_unexpected "pics")) = true ∨
  ∃ name, extractSubredditName Sample.simple_URL Sample.pics_url = Some name ∧
          JS.mkError (msg_unexpected "pics") = JS.mkError (msg_unexpected name).
Proof.
  eapply (scrapeTrendyImages_errors Sample.simple_URL
            (Sample.env_with (Some "my-id") (Some "my-secret") 200 429)
            Sample.pics_url 25 Sample.fresh_world).
  vm_compute. reflexivity.
Defined.

Lemma token_cache_stays_well_formed_witness :
  cache_wf (getRedditAccessToken Sample.env_ok (Sample.cached_world 1000)).2 ∧
  cache_wf (scrapeTrendyImages Sample.simple_URL Sample.env_ok Sample.pics_url 25
              (Sample.cached_world 1000)).2.
Proof.
  apply (token_cache_stays_well_formed Sample.simple_URL Sample.env_ok Sample.pics_url 25
           (Sample.cached_world 1000)).
  discriminate.
Defined.

Lemma malformed_listing_rejected_witness :
  scrapeTrendyImages Sample.simple_URL MoreSamples.env_not_a_listing
    Sample.pics_url 25 Sample.fresh_world =
  (Thrown (JS.mkError msg_invalid_structure),
   with_request (hot_request MoreSamples.env_not_a_listing "pics" 25 "token-1")
     (getRedditAccessToken MoreSamples.env_not_a_listing Sample.fresh_world).2).
Proof.
  apply (malformed_listing_rejected Sample.simple_URL MoreSamples.env_not_a_listing
           Sample.pics_url "pics" "token-1" 25 Sample.fresh_world
           (getRedditAccessToken MoreSamples.env_not_a_listing Sample.fresh_world).2
           {| status := 200; text := "listing body";
              json := inr MoreSamples.not_a_listing |})
    with (listing := MoreSamples.not_a_listing);
    [reflexivity | vm_compute; reflexivity | reflexivity | reflexivity
    | reflexivity | reflexivity].
Defined.

Lemma sanitizeAndFilterImages_monotone_witness :
  sanitizeAndFilterImages Sample.simple_URL Sample.mixed_posts (getAllowedHostnames [])
    `sublist_of`
    sanitizeAndFilterImages Sample.simple_URL Sample.mixed_posts
      (getAllowedHostnames ["example.org"]) ∧
  sanitizeAndFilterImages Sample.simple_URL Sample.mixed_posts
    (getAllowedHostnames ["example.org"]) `sublist_of` Sample.mixed_posts.
Proof.
  apply (sanitizeAndFilterImages_monotone Sample.simple_URL Sample.mixed_posts
           (getAllowedHostnames []) (getAllowedHostnames ["example.org"])).
  apply (bool_decide_unpack _). by vm_compute.
Defined.

Lemma sanitizeAndFilterImages_NoDup_witness :
  NoDup (mediaUrl <$> sanitizeAndFilterImages Sample.simple_URL Sample.mixed_posts
                        (getAllowedHostnames [])).
Proof.
  apply (sanitizeAndFilterImages_NoDup Sample.simple_URL Sample.mixed_posts
           (getAllowedHostnames [])).
  apply (bool_decide_unpack _). by vm_compute.
Defined.

Lemma scrapeSubredditAction_media_witness :
  Forall (kept Sample.simple_URL (getAllowedHostnames []))
    [ {| mediaUrl := "https://i.redd.it/abc.jpg"; mediaType := image;
         title := "A post";
         redditUrl := "https://www.reddit.com/r/pics/comments/abc/a_post/" |} ] ∧
  NoDup (mediaUrl <$>
    [ {| mediaUrl := "https://i.redd.it/abc.jpg"; mediaType := image;
         title := "A post";
         redditUrl := "https://www.reddit.com/r/pics/comments/abc/a_post/" |} ]).
Proof.
  eapply (scrapeSubredditAction_media Sample.simple_URL Sample.env_ok
            MoreSamples.accept_url MoreSamples.accept_limit []
            MoreSamples.initial_state MoreSamples.pics_form Sample.fresh_world).
  - vm_compute. reflexivity.
  - reflexivity.
Defined.

Lemma scrapeSubredditAction_fails_early_witness :
  ∃ m,
    scrapeSubredditAction Sample.simple_URL Sample.env_ok MoreSamples.accept_url
      MoreSamples.accept_limit [] MoreSamples.initial_state MoreSamples.no_url_form
      Sample.fresh_world =
    (Returned {| media_of := None; error_of := Some m; message_of := None;
                 timestamp := 1000000 |}, tick Sample.fresh_world).
Proof.
  apply (scrapeSubredditAction_fails_early Sample.simple_URL Sample.env_ok
           MoreSamples.accept_url MoreSamples.accept_limit []
           MoreSamples.initial_state MoreSamples.no_url_form Sample.fresh_world).
  left. eexists. reflexivity.
Defined.

(** ** Consistency of the two models of [split] *)

Lemma split_by_go_single (c : ascii) (s cur : string) :
  JSString.split_by_go (String c EmptyString) s cur 0 = JS.split_go c s cur.
Proof.
  revert cur. induction s as [|a s IH]; intros cur; [reflexivity|].
  cbn [JSString.split_by_go JS.split_go JS.startsWith String.length Nat.sub].
  rewrite (Ascii.eqb_sym c a). destruct (Ascii.eqb a c).
  - destruct s; cbn [JS.startsWith]; by rewrite IH.
  - apply IH.
Qed.

(** Splitting at a one-character string is splitting at that character. *)
Lemma split_by_single (c : ascii) (s : string) :
  JSString.split_by s (String c EmptyString) = JS.split s c.
Proof. apply split_by_go_single. Qed.

(** The download names of some posts. The title of the fifth is
    [h\u00e9llo w\u00f6rld]; the title of the sixth is an emoji, two
    surrogate code units, between two ideographic spaces. *)
Example download_name_samples :
  download_name (JSString.code_units "  Hello, World! (2024) / test.png  ")
    "https://i.redd.it/abc.JPG?width=100" "image/jpeg" =
    JSString.code_units "Hello_ World_ _2024_ _ test_png.jpg" ∧
  download_name (JSString.code_units "!!!") "https://i.redd.it/abc" "image/svg+xml" =
    JSString.code_units "___.svg+xml" ∧
  download_name [] "https://i.redd.it/abc.bmp" "" = JSString.code_units "download.jpg" ∧
  download_name (JSString.code_units "   ") "https://v.redd.it/abc" "video/" =
    JSString.code_units "download.mp4" ∧
  download_name [104; 233; 108; 108; 111; 32; 119; 246; 114; 108; 100]%N
    "https://i.redd.it/abc.png" "image/png" =
    JSString.code_units "h_llo w_rld.png" ∧
  download_name [0x3000; 0xd83d; 0xde00; 0x3000]%N
    "https://i.redd.it/abc.png" "image/png" =
    JSString.code_units "__.png".
Proof. vm_compute. repeat split; reflexivity. Qed.
